(** * Product image processor: model of [app.py] and its properties

    The program is a Flask application around one class,
    [ProductImageProcessor].  Its configuration is a Python dictionary, its
    pipeline a fixed chain of calls into Pillow, python-resize-image and
    rembg, and its request handler a loop over the uploaded files that
    skips the files that raise.

    The dictionary is modelled by stdpp's [gmap] over strings, exceptions by
    a [result] type, and the process-wide state touched by the handler (the
    configuration held by the global [processor], the error log, the clock)
    by a small state-and-exception monad.  The third-party calls whose
    result depends on pixel arithmetic or on a trained model are fields of
    the class [Externals]; what the development uses of their documented
    behaviour is stated in [ExternalsLaws]. *)

From Stdlib Require Import ZArith Floats Ascii String.
From stdpp Require Import gmap strings list fin_maps.

Set Warnings "-inexact-float,-register-all,-abstract-large-number".
#[local] Open Scope string_scope.
#[local] Open Scope Z_scope.
#[local] Open Scope list_scope.

(** ** Exceptions and results *)

Inductive exn :=
  | KeyError (key : string)
  | TypeError (msg : string)
  | AttributeError (msg : string)
  | IndexError (msg : string)
  | ValueError (msg : string)
  | OSError (msg : string)
  | LibraryError (msg : string).

(** [str(e)]: a [KeyError] prints the repr of its key, the others their
    message. *)
Definition str (e : exn) : string :=
  match e with
  | KeyError key => "'" +:+ key +:+ "'"
  | TypeError msg | AttributeError msg | IndexError msg
  | ValueError msg | OSError msg | LibraryError msg => msg
  end.

Inductive result (A : Type) :=
  | Ok (a : A)
  | Raise (e : exn).
Arguments Ok {A} a.
Arguments Raise {A} e.

#[global] Instance result_ret : MRet result := @Ok.
#[global] Instance result_bind : MBind result := fun A B f r =>
  match r with
  | Ok a => f a
  | Raise e => Raise e
  end.

(** ** Python values

    The values a YAML document or the default configuration can hold.
    Dictionaries have string keys; a float is an IEEE binary64 number. *)

#[local] Unset Elimination Schemes.
Inductive value :=
  | VNone
  | VBool (b : bool)
  | VInt (z : Z)
  | VFloat (x : float)
  | VStr (s : string)
  | VList (l : list value)
  | VDict (d : gmap string value).
#[local] Set Elimination Schemes.

(** Truth value of an object, as tested by [if v:]. *)
Definition truthy (v : value) : bool :=
  match v with
  | VNone => false
  | VBool b => b
  | VInt z => negb (z =? 0)
  | VFloat x => negb (PrimFloat.eqb x 0%float)
  | VStr s => match s with EmptyString => false | _ => true end
  | VList l => match l with [] => false | _ => true end
  | VDict d => match map_to_list d with [] => false | _ => true end
  end.

Definition type_name (v : value) : string :=
  match v with
  | VNone => "NoneType"
  | VBool _ => "bool"
  | VInt _ => "int"
  | VFloat _ => "float"
  | VStr _ => "str"
  | VList _ => "list"
  | VDict _ => "dict"
  end.

(** [d[key]] on a dictionary. *)
Definition getitem (d : gmap string value) (key : string) : result value :=
  match d !! key with
  | Some v => Ok v
  | None => Raise (KeyError key)
  end.

(** [v[key]] with a string key on any value: only a dictionary accepts
    it. *)
Definition subscript (v : value) (key : string) : result value :=
  match v with
  | VDict d => getitem d key
  | VList _ =>
      Raise (TypeError "list indices must be integers or slices, not str")
  | VStr _ => Raise (TypeError "string indices must be integers, not 'str'")
  | _ => Raise (TypeError ("'" +:+ type_name v +:+ "' object is not subscriptable"))
  end.

(** [{**d, **v}]: the keys of [v] win; [v] must be a mapping. *)
Definition dict_merge (d : gmap string value) (v : value)
  : result (gmap string value) :=
  match v with
  | VDict o => Ok (o ∪ d)
  | _ => Raise (TypeError ("'" +:+ type_name v +:+ "' object is not a mapping"))
  end.

(** ASCII case mapping, for [str.upper] and [str.lower]. *)
Definition upper_ascii (c : ascii) : ascii :=
  let n := nat_of_ascii c in
  if ((97 <=? n) && (n <=? 122))%nat then ascii_of_nat (n - 32) else c.

Definition lower_ascii (c : ascii) : ascii :=
  let n := nat_of_ascii c in
  if ((65 <=? n) && (n <=? 90))%nat then ascii_of_nat (n + 32) else c.

Fixpoint map_string (f : ascii → ascii) (s : string) : string :=
  match s with
  | EmptyString => EmptyString
  | String c s' => String (f c) (map_string f s')
  end.

(** [v.upper()]: only a string has the method. *)
Definition upper (v : value) : result string :=
  match v with
  | VStr s => Ok (map_string upper_ascii s)
  | _ => Raise (AttributeError
           ("'" +:+ type_name v +:+ "' object has no attribute 'upper'"))
  end.

(** ** Images (Pillow)

    An image has a mode, a size and its pixels in row-major order, each
    pixel a list of band values in 0..255. *)

Definition pixel := list Z.

Record Image := mkImage {
  mode : string;
  width : nat;
  height : nat;
  pixels : list pixel
}.

Definition size (image : Image) : nat * nat := (width image, height image).

Definition hex_digit (c : ascii) : option Z :=
  let n := nat_of_ascii c in
  if ((48 <=? n) && (n <=? 57))%nat then Some (Z.of_nat (n - 48))
  else if ((97 <=? n) && (n <=? 102))%nat then Some (Z.of_nat (n - 87))
  else None.

(** [ImageColor.getrgb], for the color names and the [#rrggbb] syntax (the
    other syntaxes of the library are not needed by this program and are
    left out). *)
Definition getrgb (color : string) : result pixel :=
  let color := map_string lower_ascii color in
  if decide (color = "white") then Ok [255; 255; 255]
  else if decide (color = "black") then Ok [0; 0; 0]
  else if decide (color = "red") then Ok [255; 0; 0]
  else
    match color with
    | String "#" (String r1 (String r2 (String g1 (String g2
        (String b1 (String b2 EmptyString)))))) =>
        match hex_digit r1, hex_digit r2, hex_digit g1,
              hex_digit g2, hex_digit b1, hex_digit b2 with
        | Some r1, Some r2, Some g1, Some g2, Some b1, Some b2 =>
            Ok [16 * r1 + r2; 16 * g1 + g2; 16 * b1 + b2]
        | _, _, _, _, _, _ =>
            Raise (ValueError ("unknown color specifier: '" +:+ color +:+ "'"))
        end
    | _ => Raise (ValueError ("unknown color specifier: '" +:+ color +:+ "'"))
    end.

(** [Image.new('RGB', size, color)] with a color given as a string. *)
Definition Image_new_RGB (sz : nat * nat) (color : string) : result Image :=
  rgb ← getrgb color;
  Ok (mkImage "RGB" sz.1 sz.2 (replicate (sz.1 * sz.2)%nat rgb)).

(** Number of bands of the standard modes ([Image.getbands]); a mode
    outside the table counts as one band. *)
Definition band_count (m : string) : nat :=
  if decide (m = "RGB") then 3
  else if decide (m = "RGBA") then 4
  else if decide (m = "CMYK") then 4
  else if decide (m = "RGBX") then 4
  else if decide (m = "RGBa") then 4
  else if decide (m = "YCbCr") then 3
  else if decide (m = "LAB") then 3
  else if decide (m = "HSV") then 3
  else if decide (m = "LA") then 2
  else if decide (m = "PA") then 2
  else if decide (m = "La") then 2
  else 1.

(** [image.split()]: one single-band image per band. *)
Definition getband (image : Image) (k : nat) : Image :=
  mkImage "L" (width image) (height image)
    ((fun p : pixel => [default 0 (p !! k)]) <$> pixels image).

Definition split (image : Image) : list Image :=
  match band_count (mode image) with
  | 1%nat => [image]
  | n => getband image <$> seq 0 n
  end.

(** [t[i]] on a tuple. *)
Definition tuple_index {A} (t : list A) (i : nat) : result A :=
  match t !! i with
  | Some a => Ok a
  | None => Raise (IndexError "tuple index out of range")
  end.

Definition getpixel (image : Image) (x y : nat) : option pixel :=
  if ((x <? width image) && (y <? height image))%nat
  then pixels image !! (y * width image + x)%nat
  else None.

(** Pillow's 8-bit blend of a destination value [in1] and a source value
    [in2] under a mask value: the rounded division by 255 of
    [in1 * (255 - mask) + in2 * mask]. *)
Definition blend8 (mask in1 in2 : Z) : Z :=
  let tmp := in1 * (255 - mask) + in2 * mask + 128 in
  Z.shiftr (Z.shiftr tmp 8 + tmp) 8.

(** [background.paste(image, mask=mask)] at the default box, the upper
    left corner.  The call updates [background] in place; the program
    only pastes into an image it has just created, so the model returns
    the updated image.  The mask must have the size of the source. *)
Definition paste (background image mask : Image) : result Image :=
  if decide (size image = size mask) then
    Ok (mkImage (mode background) (width background) (height background)
          (imap (fun i (p : pixel) =>
                   let x := (i mod width background)%nat in
                   let y := (i / width background)%nat in
                   match getpixel image x y, getpixel mask x y with
                   | Some q, Some (m :: _) => zip_with (blend8 m) p q
                   | _, _ => p
                   end)
                (pixels background)))
  else Raise (ValueError "images do not match").

(** ** Third-party calls

    [Image_open] is [Image.open] on an upload's stream, [convert] is
    [image.convert(mode)], [thumbnail] is Pillow's [img.thumbnail((w, h),
    resample)] on a copy of the image (the copy, shrunk in place, is the
    result), [remove] the segmentation of rembg, [enhance] an
    [ImageEnhance] class applied to an image and then to a factor, [save]
    is [image.save(buffer, format=..., quality=...)] followed by the read of
    the buffer, [safe_load] is [yaml.safe_load] and [strftime_now] the
    text of [datetime.now().strftime('%Y%m%d_%H%M%S')] at the n-th reading
    of the clock. *)

Definition bytes := list Byte.byte.

Inductive enhancer := Contrast | Brightness | Sharpness.

Class Externals := {
  Image_open : bytes → result Image;
  convert : Image → string → result Image;
  thumbnail : Image → value → value → result Image;
  remove : Image → result Image;
  enhance : enhancer → Image → float → result Image;
  save : Image → value → value → result bytes;
  safe_load : string → result value;
  strftime_now : nat → string
}.

(** What the libraries document about the mode and the size of their
    results: [convert] to the mode an image already has returns a copy of
    it; a thumbnail keeps the mode, fits in the box it was given, and is
    the image itself when that already fits. *)
Class ExternalsLaws `{Externals} : Prop := {
  convert_mode : ∀ image m out, convert image m = Ok out → mode out = m;
  convert_size : ∀ image m out,
    convert image m = Ok out → size out = size image;
  convert_same : ∀ image, convert image (mode image) = Ok image;
  thumbnail_mode : ∀ image w h out,
    thumbnail image w h = Ok out → mode out = mode image;
  thumbnail_fits : ∀ image (w h : Z) out,
    thumbnail image (VInt w) (VInt h) = Ok out →
    Z.of_nat (width out) ≤ w ∧ Z.of_nat (height out) ≤ h;
  thumbnail_unchanged : ∀ image (w h : Z),
    Z.of_nat (width image) ≤ w → Z.of_nat (height image) ≤ h →
    thumbnail image (VInt w) (VInt h) = Ok image;
  remove_size : ∀ image out, remove image = Ok out → size out = size image;
  enhance_size : ∀ k image factor out,
    enhance k image factor = Ok out → size out = size image
}.

(** ** Process state and the monad of the methods

    [config] is [processor.config], the one dictionary shared by all
    requests; [logged] the messages passed to [logging.error], oldest
    first; [clock] the number of readings of the clock so far. *)

Record world := mkWorld {
  config : gmap string value;
  logged : list string;
  clock : nat
}.

Definition M (A : Type) : Type := world → result A * world.

#[global] Instance M_ret : MRet M := fun A a w => (Ok a, w).
#[global] Instance M_bind : MBind M := fun A B f m w =>
  match m w with
  | (Ok a, w') => f a w'
  | (Raise e, w') => (Raise e, w')
  end.

Definition lift {A} (r : result A) : M A := fun w => (r, w).

Definition get_config : M (gmap string value) := fun w => (Ok (config w), w).

Definition add_log (w : world) (l : list string) : world :=
  mkWorld (config w) (logged w ++ l) (clock w).

Definition logging_error (msg : string) : M () :=
  fun w => (Ok (), add_log w [msg]).

(** [try: body except Exception as e: handler e]. *)
Definition try_except {A} (body : M A) (handler : exn → M A) : M A :=
  fun w =>
    match body w with
    | (Ok a, w') => (Ok a, w')
    | (Raise e, w') => handler e w'
    end.

(** The pattern of the three methods: log the error under a prefix and
    raise it again. *)
Definition log_and_reraise {A} (prefix : string) (body : M A) : M A :=
  try_except body
    (fun e => logging_error (prefix +:+ str e) ;; lift (Raise e)).

(** [self.config[section][key]]. *)
Definition config_get (section key : string) : M value :=
  cfg ← get_config;
  sec ← lift (getitem cfg section);
  lift (subscript sec key).

Section Processor.
Context `{Externals}.

(** ** [ProductImageProcessor] *)

Definition default_config : gmap string value :=
  list_to_map [
    ("dimensions", VDict (list_to_map [("width", VInt 1200); ("height", VInt 1200)]));
    ("output_format", VStr "JPEG");
    ("quality", VInt 95);
    ("operations", VDict (list_to_map [
       ("resize", VBool true);
       ("remove_background", VBool false);
       ("enhance", VBool true);
       ("watermark", VBool false)]));
    ("backgrounds", VDict (list_to_map [
       ("default_color", VStr "#FFFFFF");
       ("gradient", VBool false)]))
  ].

(** The files the loader can see: a path names a regular file with its
    text, a directory, or nothing. *)
Inductive node :=
  | File (content : string)
  | Directory.

(** [_load_config(config_path)]; [None] is the absent argument. *)
Definition _load_config (fs : gmap string node) (config_path : option string)
  : result (gmap string value) :=
  match config_path with
  | None => Ok default_config
  | Some EmptyString => Ok default_config
  | Some path =>
      match fs !! path with
      | None => Ok default_config
      | Some Directory => Raise (OSError ("Is a directory: '" +:+ path +:+ "'"))
      | Some (File content) =>
          loaded ← safe_load content;
          dict_merge default_config loaded
      end
  end.

(** [if image.mode != 'RGB': image = image.convert('RGB')]. *)
Definition normalize (image : Image) : M Image :=
  if decide (mode image ≠ "RGB") then lift (convert image "RGB")
  else mret image.

(** ** [resizeimage.resize_contain]

    The function of python-resize-image: a thumbnail of the image, pasted
    in the middle of a new transparent white canvas of the requested
    size.  [size] is the Python list the program builds. *)

(** [l[i]] on a list. *)
Definition list_index {A} (l : list A) (i : nat) : result A :=
  match l !! i with
  | Some a => Ok a
  | None => Raise (IndexError "list index out of range")
  end.

(** A value where Pillow wants an integer: a bool is an integer in
    Python. *)
Definition as_int (v : value) : result Z :=
  match v with
  | VInt z => Ok z
  | VBool b => Ok (if b then 1 else 0)
  | _ => Raise (TypeError ("'" +:+ type_name v +:+
                           "' object cannot be interpreted as an integer"))
  end.

(** [Image.new('RGBA', (w, h), color)] with a color given as a tuple. *)
Definition Image_new_RGBA (w h : Z) (color : pixel) : result Image :=
  if decide (w < 0 ∨ h < 0)
  then Raise (ValueError "Width and height must be >= 0")
  else Ok (mkImage "RGBA" (Z.to_nat w) (Z.to_nat h)
             (replicate (Z.to_nat w * Z.to_nat h) color)).

(** [int(math.ceil(d / 2))] for an integer [d]. *)
Definition ceil_half (d : Z) : Z := (d + 1) / 2.

(** The pixels of [background] after an image of the same mode is copied
    on it with its upper left corner at [(x0, y0)]; what falls outside
    the background is cut off. *)
Definition paste_at (background image : Image) (x0 y0 : Z) : Image :=
  mkImage (mode background) (width background) (height background)
    (imap (fun i (p : pixel) =>
             let x := Z.of_nat (i mod width background) - x0 in
             let y := Z.of_nat (i / width background) - y0 in
             if (0 <=? x) && (0 <=? y) then
               default p (getpixel image (Z.to_nat x) (Z.to_nat y))
             else p)
          (pixels background)).

(** [background.paste(img, position)] on the RGBA canvas, with no mask:
    an image of another mode is first converted to RGBA. *)
Definition paste_on_canvas (background img : Image) (x0 y0 : Z)
  : result Image :=
  img ← (if decide (mode img = "RGBA") then Ok img else convert img "RGBA");
  Ok (paste_at background img x0 y0).

Definition resize_contain (image : Image) (size : list value) : result Image :=
  w ← list_index size 0;
  h ← list_index size 1;
  img ← thumbnail image w h;
  bw ← as_int w;
  bh ← as_int h;
  background ← Image_new_RGBA bw bh [255; 255; 255; 0];
  background ← paste_on_canvas background img
                  (ceil_half (bw - Z.of_nat (width img)))
                  (ceil_half (bh - Z.of_nat (height img)));
  convert background "RGBA".

(** The resize step of [process_image]. *)
Definition resize_step (image : Image) : M Image :=
  flag ← config_get "operations" "resize";
  if truthy flag then
    w ← config_get "dimensions" "width";
    h ← config_get "dimensions" "height";
    lift (resize_contain image [w; h])
  else mret image.

(** The handling of transparency after the removal: a new white image of
    the same size, the image pasted on it under its own fourth band. *)
Definition paste_on_white (image : Image) : result Image :=
  background ← Image_new_RGB (size image) "white";
  alpha ← tuple_index (split image) 3;
  paste background image alpha.

(** The background step of [process_image]. *)
Definition remove_background_step (image : Image) : M Image :=
  flag ← config_get "operations" "remove_background";
  if truthy flag then
    image ← lift (remove image);
    if decide (mode image = "RGBA") then lift (paste_on_white image)
    else mret image
  else mret image.

Definition _enhance_image (image : Image) : M Image :=
  log_and_reraise "Error enhancing image: " (
    image ← normalize image;
    image ← lift (enhance Contrast image 1.2%float);
    image ← lift (enhance Brightness image 1.1%float);
    lift (enhance Sharpness image 1.1%float)).

(** The enhancement step of [process_image]. *)
Definition enhance_step (image : Image) : M Image :=
  flag ← config_get "operations" "enhance";
  if truthy flag then _enhance_image image else mret image.

Definition process_image (image : Image) : M Image :=
  log_and_reraise "Error processing image: " (
    image ← normalize image;
    image ← resize_step image;
    image ← remove_background_step image;
    image ← enhance_step image;
    normalize image).

Definition save_image (image : Image) (output_format : value) : M bytes :=
  log_and_reraise "Error saving image: " (
    up ← lift (upper output_format);
    image ← (if decide (up = "JPEG") then normalize image else mret image);
    cfg ← get_config;
    quality ← lift (getitem cfg "quality");
    lift (save image output_format quality)).

End Processor.

(** ** The request handler *)

(** An uploaded file: the name is absent or a string, the stream holds the
    bytes sent. *)
Record FileStorage := mkFile {
  filename : option string;
  stream : bytes
}.

(** A multipart request as the handler meets it.  [form] is what the
    first read of [request.form] gives: the fields, or the exception that
    werkzeug raises while it parses the body (a field or a body over its
    limits).  [files] holds the file parts per field name; a field that
    is present has at least one part. *)
Record request := mkRequest {
  form : result (gmap string string);
  files : gmap string (list FileStorage)
}.

(** The archive under construction: the entries written so far, in
    order. *)
Definition archive := list (string * bytes).

Inductive body :=
  | Text (s : string)
  | Attachment (entries : archive).

Record response := mkResponse {
  payload : body;
  status : nat;
  mimetype : option string;
  download_name : option string
}.

(** A view returning the pair [(text, code)]: Flask sends the text under
    its default content type, text/html. *)
Definition text_response (s : string) (code : nat) : response :=
  mkResponse (Text s) code (Some "text/html") None.

(** [send_file(memory_file, mimetype=..., as_attachment=True,
    download_name=...)]. *)
Definition send_file (zf : archive) (mime name : string) : response :=
  mkResponse (Attachment zf) 200 (Some mime) (Some name).

(** [datetime.now().strftime('%Y%m%d_%H%M%S')]. *)
Definition now `{Externals} : M string :=
  fun w => (Ok (strftime_now (clock w)),
            mkWorld (config w) (logged w) (S (clock w))).

(** ['key' in request.form], once the form is read. *)
Definition in_form (fields : gmap string string) (key : string) : bool :=
  bool_decide (is_Some (fields !! key)).

(** The three flags written on a request. *)
Definition updated_operations (fields : gmap string string)
    (ops : gmap string value) : gmap string value :=
  <["enhance" := VBool (in_form fields "enhance")]>
    (<["remove_background" := VBool (in_form fields "remove_background")]>
       (<["resize" := VBool (in_form fields "resize")]> ops)).

(** [processor.config['operations'].update({...})]: the dictionary stored
    under ['operations'] is looked up, then its [update] method, then the
    argument is built, which reads the form; at last the dictionary is
    updated in place. *)
Definition update_operations (req : request) : M () :=
  fun w =>
    match config w !! "operations" with
    | None => (Raise (KeyError "operations"), w)
    | Some (VDict ops) =>
        match form req with
        | Ok fields =>
            (Ok (),
             mkWorld (<["operations" := VDict (updated_operations fields ops)]>
                        (config w))
                     (logged w) (clock w))
        | Raise e => (Raise e, w)
        end
    | Some v =>
        (Raise (AttributeError
                  ("'" +:+ type_name v +:+ "' object has no attribute 'update'")), w)
    end.

(** The name [zipfile] stores for an entry: the name up to its first NUL
    character. *)
Fixpoint zip_name (name : string) : string :=
  match name with
  | EmptyString => EmptyString
  | String c rest =>
      if decide (c = Ascii.zero) then EmptyString else String c (zip_name rest)
  end.

(** The entry [zf.writestr(name, data)] makes, a string being the bytes
    of its encoding: the header of an entry cannot declare a stored name
    of more than 65535 bytes, and packing it raises.  (The date that is
    stored with the entry is taken to be one a zip file can hold.) *)
Definition zip_entry (name : string) (data : bytes) : result (string * bytes) :=
  if decide (65535 < Z.of_nat (String.length (zip_name name)))
  then Raise (LibraryError "'H' format requires 0 <= number <= 65535")
  else Ok (zip_name name, data).

(** [zf.writestr(name, data)]: the entry is added at the end, also when
    the archive has an entry of that name; when the call raises the
    archive is as before. *)
Definition writestr (zf : archive) (name : string) (data : bytes)
  : result archive :=
  entry ← zip_entry name data;
  Ok (zf ++ [entry]).

(** [f"processed_{timestamp}_{file.filename}"]. *)
Definition entry_name (timestamp name : string) : string :=
  "processed_" +:+ timestamp +:+ "_" +:+ name.

(** Truth value of [file.filename]. *)
Definition named (file : FileStorage) : option string :=
  match filename file with
  | Some (String c s) => Some (String c s)
  | _ => None
  end.

Section Handler.
Context `{Externals}.

(** The first half of the body of the inner [try]: open, process and
    encode one upload. *)
Definition encode_upload (file : FileStorage) : M bytes :=
  img ← lift (Image_open (stream file));
  processed_img ← process_image img;
  cfg ← get_config;
  output_format ← lift (getitem cfg "output_format");
  save_image processed_img output_format.

(** The whole body of the inner [try]: the archive with the entry of
    the upload written to it. *)
Definition archive_upload (zf : archive) (file : FileStorage) (name : string)
  : M archive :=
  img_buffer ← encode_upload file;
  timestamp ← now;
  lift (writestr zf (entry_name timestamp name) img_buffer).

(** One turn of the loop over the uploads. *)
Definition process_file (zf : archive) (file : FileStorage) : M archive :=
  match named file with
  | Some name =>
      try_except
        (archive_upload zf file name)
        (fun e =>
           logging_error ("Error processing " +:+ name +:+ ": " +:+ str e) ;;
           mret zf)
  | None => mret zf
  end.

Fixpoint process_files (fl : list FileStorage) (zf : archive) : M archive :=
  match fl with
  | [] => mret zf
  | file :: rest => zf' ← process_file zf file; process_files rest zf'
  end.

Definition process_images (req : request) : M response :=
  try_except
    (update_operations req ;;
     match files req !! "images" with
     | None => mret (text_response "No files uploaded" 400)
     | Some fl =>
         zf ← process_files fl [];
         timestamp ← now;
         mret (send_file zf "application/zip"
                 ("processed_images_" +:+ timestamp +:+ ".zip"))
     end)
    (fun e =>
       logging_error ("Processing error: " +:+ str e) ;;
       mret (text_response (str e) 500)).

(** The states of the running application: the module creates
    [processor = ProductImageProcessor()], and every request is handled
    from the state the previous ones left. *)
Inductive reachable : world → Prop :=
  | reach_start fs cfg l t :
      _load_config fs None = Ok cfg → reachable (mkWorld cfg l t)
  | reach_request w req :
      reachable w → reachable (process_images req w).2.

End Handler.

(** The configurations of the running application: the defaults with a
    boolean under each of the three flags. *)
Definition flags (r b e : bool) : gmap string value :=
  list_to_map [
    ("resize", VBool r);
    ("remove_background", VBool b);
    ("enhance", VBool e);
    ("watermark", VBool false)].

Definition flags_config (r b e : bool) : gmap string value :=
  <["operations" := VDict (flags r b e)]> default_config.

(** ** An image placed on a canvas

    [inner] sits whole on [out] with its upper left corner at
    [(x0, y0)]: it does not stick out, each of its pixels is the pixel of
    [out] at the shifted place, and every other pixel of [out] is
    [pad]. *)
Definition placed (inner out : Image) (x0 y0 : nat) (pad : pixel) : Prop :=
  (x0 + width inner ≤ width out)%nat ∧
  (y0 + height inner ≤ height out)%nat ∧
  (∀ x y p, getpixel inner x y = Some p →
     getpixel out (x0 + x) (y0 + y) = Some p) ∧
  (∀ x y, (x < width out)%nat → (y < height out)%nat →
     ¬ ((x0 ≤ x < x0 + width inner)%nat ∧ (y0 ≤ y < y0 + height inner)%nat) →
     getpixel out x y = Some pad).

(** ** Reading the configuration two levels deep *)

Definition config_lookup (cfg : gmap string value) (section key : string)
  : option value :=
  match cfg !! section with
  | Some (VDict d) => d !! key
  | _ => None
  end.

(** ** The compositing as the specification words it

    The specification has the background filled with the color
    configured under [backgrounds.default_color]; this is that reading,
    to be compared with [paste_on_white]. *)
Definition paste_on_configured_color (cfg : gmap string value) (image : Image)
  : result Image :=
  match config_lookup cfg "backgrounds" "default_color" with
  | Some (VStr color) =>
      background ← Image_new_RGB (size image) color;
      alpha ← tuple_index (split image) 3;
      paste background image alpha
  | _ => Raise (KeyError "default_color")
  end.

(** ** What a batch is expected to leave in the archive *)

Section Expected.
Context `{Externals}.

(** The fate of one upload under the configuration of [w]. *)
Definition outcome (w : world) (file : FileStorage) : result bytes :=
  (encode_upload file w).1.

(** What becomes of one upload handled when the clock stands at [t]: it
    has no name and is passed over, or something raised and it is
    skipped, or its entry is written. *)
Inductive fate :=
  | Unnamed
  | Failed (name : string) (e : exn)
  | Archived (entry : string * bytes).

Definition fate_of (w : world) (t : nat) (file : FileStorage) : fate :=
  match named file with
  | None => Unnamed
  | Some name =>
      match outcome w file with
      | Raise e => Failed name e
      | Ok data =>
          match zip_entry (entry_name (strftime_now t) name) data with
          | Raise e => Failed name e
          | Ok entry => Archived entry
          end
      end
  end.

(** The readings of the clock one upload costs: one when it has a name
    and is encoded, before its entry is written. *)
Definition ticks (w : world) (file : FileStorage) : nat :=
  match named file, outcome w file with
  | Some _, Ok _ => 1
  | _, _ => 0
  end.

(** The fates of the uploads of a batch, in upload order. *)
Fixpoint fates (w : world) (t : nat) (fl : list FileStorage) : list fate :=
  match fl with
  | [] => []
  | file :: rest => fate_of w t file :: fates w (t + ticks w file) rest
  end.

Definition readings (w : world) (fl : list FileStorage) : nat :=
  sum_list (ticks w <$> fl).

(** The entries of the uploads that were archived, and the lines the
    handler logs for those that failed. *)
Definition archived (fs : list fate) : archive :=
  omap (fun f => match f with Archived entry => Some entry | _ => None end) fs.

Definition complaints (fs : list fate) : list string :=
  omap (fun f =>
          match f with
          | Failed name e =>
              Some ("Error processing " +:+ name +:+ ": " +:+ str e)
          | _ => None
          end) fs.

End Expected.

(** ** A small executable instance of the third-party calls

    Used to run the model on concrete inputs.  An upload is a header of
    three bytes (number of bands, width, height) followed by the band
    values; anything else cannot be decoded. *)

Module Stub.

Definition to_rgb (p : pixel) : pixel :=
  match p with
  | r :: g :: b :: _ => [r; g; b]
  | l :: _ => [l; l; l]
  | [] => [0; 0; 0]
  end.

Fixpoint chunks {A} (count n : nat) (l : list A) : list (list A) :=
  match count with
  | O => []
  | S count' => take n l :: chunks count' n (drop n l)
  end.

Definition mode_of_bands (n : nat) : option string :=
  match n with
  | 1%nat => Some "L"
  | 3%nat => Some "RGB"
  | 4%nat => Some "RGBA"
  | _ => None
  end.

Definition decode (b : bytes) : result Image :=
  match b with
  | bands :: w :: h :: data =>
      let n := Byte.to_nat bands in
      let w := Byte.to_nat w in
      let h := Byte.to_nat h in
      match mode_of_bands n with
      | Some m =>
          if decide (length data = (n * (w * h))%nat) then
            Ok (mkImage m w h
                  (chunks (w * h) n ((fun x => Z.of_nat (Byte.to_nat x)) <$> data)))
          else Raise (LibraryError "cannot identify image file")
      | None => Raise (LibraryError "cannot identify image file")
      end
  | _ => Raise (LibraryError "cannot identify image file")
  end.

Definition to_mode (image : Image) (m : string) : result Image :=
  if decide (mode image = m) then Ok image
  else if decide (m = "RGB") then
    Ok (mkImage m (width image) (height image) (to_rgb <$> pixels image))
  else if decide (m = "RGBA") then
    Ok (mkImage m (width image) (height image)
          ((fun p => to_rgb p ++ [255]) <$> pixels image))
  else Raise (ValueError "conversion not supported").

(** Nearest-neighbour shrinking to the box, one side of which the
    result fills. *)
Definition shrink (image : Image) (w h : value) : result Image :=
  match w, h with
  | VInt w, VInt h =>
      if decide (Z.of_nat (width image) ≤ w ∧ Z.of_nat (height image) ≤ h)
      then Ok image
      else if decide (0 < w ∧ 0 < h) then
        let bw := Z.to_nat w in
        let bh := Z.to_nat h in
        let tw := if decide (bw * height image ≤ bh * width image)%nat
                  then bw else (1 `max` (width image * bh / height image))%nat in
        let th := if decide (bw * height image ≤ bh * width image)%nat
                  then (1 `max` (height image * bw / width image))%nat else bh in
        Ok (mkImage (mode image) tw th
              ((fun i =>
                  default []
                    (getpixel image ((i mod tw) * width image / tw)
                       ((i / tw) * height image / th)))
                 <$> seq 0 (tw * th)))
      else Raise (ValueError "height and width must be > 0")
  | _, _ => Raise (TypeError "an integer is required")
  end.

(** Everything is foreground. *)
Definition cutout (image : Image) : result Image :=
  Ok (mkImage "RGBA" (width image) (height image)
        ((fun p => to_rgb p ++ [255]) <$> pixels image)).

Definition adjust (k : enhancer) (image : Image) (factor : float)
  : result Image := Ok image.

Definition byte_of_Z (z : Z) : Byte.byte :=
  default Byte.x00 (Byte.of_nat (Z.to_nat z mod 256)).

Definition encode (image : Image) (format quality : value) : result bytes :=
  match format with
  | VStr _ =>
      Ok (byte_of_Z (Z.of_nat (band_count (mode image)))
            :: byte_of_Z (Z.of_nat (width image))
            :: byte_of_Z (Z.of_nat (height image))
            :: (byte_of_Z <$> concat (pixels image)))
  | _ => Raise (LibraryError "unknown file extension")
  end.

(** Three sample documents. *)
Definition parse (text : string) : result value :=
  if decide (text = EmptyString) then Ok VNone
  else if decide (text = "quality: 80") then
    Ok (VDict (list_to_map [("quality", VInt 80)]))
  else if decide (text = "dimensions: {width: 800}") then
    Ok (VDict (list_to_map
                 [("dimensions", VDict (list_to_map [("width", VInt 800)]))]))
  else Raise (LibraryError "could not parse the document").

Definition timestamp (n : nat) : string := "20240101_120000".

#[export] Instance lib : Externals := {|
  Image_open := decode;
  convert := to_mode;
  thumbnail := shrink;
  remove := cutout;
  enhance := adjust;
  save := encode;
  safe_load := parse;
  strftime_now := timestamp
|}.

End Stub.

(** ** Computations that only read the configuration and log

    A computation is quiet when, from two states with the same
    configuration, it gives the same result and appends the same lines to
    the log, leaving the configuration and the clock as they were. *)

Definition quiet {A} (m : M A) : Prop :=
  ∀ w w', config w = config w' →
    ∃ r l, m w = (r, add_log w l) ∧ m w' = (r, add_log w' l).

(** ** Sample inputs

    A configuration that resizes to two pixels by one, a configuration
    whose fill color is black, a few small images and uploads, and the
    state in which the application starts. *)

Definition small_config : gmap string value :=
  <["dimensions" := VDict (list_to_map [("width", VInt 2); ("height", VInt 1)])]>
    default_config.

Definition removing_config : gmap string value :=
  <["operations" := VDict (list_to_map [
      ("resize", VBool false);
      ("remove_background", VBool true);
      ("enhance", VBool false);
      ("watermark", VBool false)])]> default_config.

Definition black_fill_config : gmap string value :=
  <["backgrounds" := VDict (list_to_map [
      ("default_color", VStr "#000000");
      ("gradient", VBool false)])]> removing_config.

(** One fully transparent pixel, as a segmentation returns for
    background. *)
Definition clear_pixel : Image := mkImage "RGBA" 1 1 [[10; 20; 30; 0]].

Definition gray_pixel : Image := mkImage "L" 1 1 [[7]].

Definition rgb_pixel : Image := mkImage "RGB" 1 1 [[10; 20; 30]].

Definition good_upload : bytes :=
  [Byte.x04; Byte.x01; Byte.x01; Byte.x0a; Byte.x14; Byte.x1e; Byte.xff].

Definition corrupt_upload : bytes := [Byte.x07].

Definition start : world := mkWorld default_config [] 0.

(** Three uploads, the second one corrupt; of the three boxes of the form
    only [enhance] is ticked. *)
Definition three_uploads : request :=
  mkRequest (Ok (list_to_map [("enhance", "on")]))
    (list_to_map [("images", [mkFile (Some "a.png") good_upload;
                              mkFile (Some "b.png") corrupt_upload;
                              mkFile (Some "c.png") good_upload])]).

(** A request with no file field and no box ticked. *)
Definition bare_request : request := mkRequest (Ok ∅) ∅.

Definition sample_files : gmap string node :=
  list_to_map [("config.yaml", File "dimensions: {width: 800}");
               ("empty.yaml", File EmptyString)].

(** ** Computations that log only when they raise

    A computation is silent when a run that returns leaves the state as it
    found it. *)

Definition silent {A} (m : M A) : Prop :=
  ∀ w a w', m w = (Ok a, w') → w' = w.

(** The libraries with another segmentation in the place of [remove]. *)
Definition with_remove (E : Externals) (f : Image → result Image) : Externals :=
  {| Image_open := @Image_open E;
     convert := @convert E;
     thumbnail := @thumbnail E;
     remove := f;
     enhance := @enhance E;
     save := @save E;
     safe_load := @safe_load E;
     strftime_now := @strftime_now E |}.

(** The request with the uploads that have no name taken out of the
    [images] field; a field left with no part is no field. *)
Definition without_unnamed (req : request) (fl : list FileStorage) : request :=
  mkRequest (form req)
    (match filter (fun file => is_Some (named file)) fl with
     | [] => delete "images" (files req)
     | kept => <["images" := kept]> (files req)
     end).

(** ** More sample inputs *)

(** A configuration with every step switched off. *)
Definition idle_config : gmap string value := flags_config false false false.

(** What the loader returns for a file that gives only a width. *)
Definition width_only_config : gmap string value :=
  <["dimensions" := VDict (list_to_map [("width", VInt 800)])]> default_config.

(** A configuration whose [operations] entry is a list. *)
Definition broken_config : gmap string value :=
  <["operations" := VList [VStr "resize"]]> default_config.

Definition opaque_pixel : Image := mkImage "RGBA" 1 1 [[10; 20; 30; 255]].

(** A form with no box ticked and one upload without a name, as a browser
    sends when no file was chosen. *)
Definition empty_selection : request :=
  mkRequest (Ok ∅) (list_to_map [("images", [mkFile (Some EmptyString) []])]).

(** Two good uploads under the same name, with one unnamed part between
    them. *)
Definition same_name_twice : request :=
  mkRequest (Ok ∅)
    (list_to_map [("images", [mkFile (Some "a.png") good_upload;
                              mkFile None corrupt_upload;
                              mkFile (Some "a.png") good_upload])]).

(** Two good uploads under the same name and nothing else. *)
Definition two_of_a_name : request :=
  mkRequest (Ok ∅)
    (list_to_map [("images", [mkFile (Some "a.png") good_upload;
                              mkFile (Some "a.png") good_upload])]).

(** A request whose body werkzeug refuses to parse, with no file and with
    one. *)
Definition too_large : exn :=
  LibraryError "413 Request Entity Too Large: The data value transmitted exceeds the capacity limit.".

Definition unreadable_request : request := mkRequest (Raise too_large) ∅.

Definition unreadable_batch : request :=
  mkRequest (Raise too_large)
    (list_to_map [("images", [mkFile (Some "a.png") good_upload])]).

(** A name too long for the header of an archive entry. *)
Fixpoint copies (n : nat) (c : ascii) : string :=
  match n with
  | O => EmptyString
  | S n' => String c (copies n' c)
  end.

Definition long_name : string := String "a" (copies 65535 "a").

Definition long_name_upload : request :=
  mkRequest (Ok ∅)
    (list_to_map [("images", [mkFile (Some long_name) good_upload])]).

(** * Properties *)

(** ** Running the monad *)

Lemma bind_run {A B} (m : M A) (k : A → M B) w :
  (m ≫= k) w =
  match m w with
  | (Ok a, w') => k a w'
  | (Raise e, w') => (Raise e, w')
  end.
Proof. reflexivity. Qed.

Lemma bind_Ok {A B} (m : M A) (k : A → M B) w b w' :
  (m ≫= k) w = (Ok b, w') →
  ∃ a w1, m w = (Ok a, w1) ∧ k a w1 = (Ok b, w').
Proof.
  rewrite bind_run. destruct (m w) as [[a|e] w1]; [eauto | discriminate].
Qed.

Lemma add_log_nil w : add_log w [] = w.
Proof. destruct w. unfold add_log. simpl. by rewrite app_nil_r. Qed.

Lemma add_log_app w l1 l2 : add_log (add_log w l1) l2 = add_log w (l1 ++ l2).
Proof. unfold add_log. simpl. by rewrite app_assoc. Qed.

(** ** Computations that only read the configuration and log *)

Lemma quiet_ret {A} (a : A) : quiet (mret a).
Proof. intros w w' _. exists (Ok a), []. by rewrite !add_log_nil. Qed.

Lemma quiet_lift {A} (r : result A) : quiet (lift r).
Proof. intros w w' _. exists r, []. by rewrite !add_log_nil. Qed.

Lemma quiet_get_config : quiet get_config.
Proof.
  intros w w' Hc. exists (Ok (config w)), []. rewrite !add_log_nil.
  unfold get_config. by rewrite Hc.
Qed.

Lemma quiet_logging_error msg : quiet (logging_error msg).
Proof. intros w w' _. by exists (Ok ()), [msg]. Qed.

Lemma quiet_bind {A B} (m : M A) (k : A → M B) :
  quiet m → (∀ a, quiet (k a)) → quiet (m ≫= k).
Proof.
  intros Hm Hk w w' Hc. rewrite !bind_run.
  destruct (Hm w w' Hc) as (r & l & -> & ->).
  destruct r as [a|e]; [| by exists (Raise e), l].
  destruct (Hk a (add_log w l) (add_log w' l) Hc) as (r & l2 & -> & ->).
  exists r, (l ++ l2). by rewrite !add_log_app.
Qed.

Lemma quiet_try_except {A} (body : M A) (handler : exn → M A) :
  quiet body → (∀ e, quiet (handler e)) → quiet (try_except body handler).
Proof.
  intros Hm Hk w w' Hc. unfold try_except.
  destruct (Hm w w' Hc) as (r & l & -> & ->).
  destruct r as [a|e]; [by exists (Ok a), l |].
  destruct (Hk e (add_log w l) (add_log w' l) Hc) as (r & l2 & -> & ->).
  exists r, (l ++ l2). by rewrite !add_log_app.
Qed.

Lemma quiet_log_and_reraise {A} prefix (body : M A) :
  quiet body → quiet (log_and_reraise prefix body).
Proof.
  intros Hb. apply quiet_try_except; [done |].
  intros e. apply quiet_bind; [apply quiet_logging_error |].
  intros _. apply quiet_lift.
Qed.

Lemma quiet_config_get section key : quiet (config_get section key).
Proof.
  apply quiet_bind; [apply quiet_get_config |]. intros cfg.
  apply quiet_bind; [apply quiet_lift |]. intros sec. apply quiet_lift.
Qed.

Create HintDb quiet.
#[local] Hint Resolve quiet_ret quiet_lift quiet_get_config quiet_logging_error
  quiet_log_and_reraise quiet_config_get : quiet.

Ltac quiet_step :=
  lazymatch goal with
  | |- quiet (_ ≫= _) => apply quiet_bind; [| intros ?]
  | |- quiet (if ?c then _ else _) => destruct c
  | |- quiet _ => solve [eauto with quiet]
  end.

Section QuietProcessor.
Context `{Externals}.

Lemma quiet_normalize image : quiet (normalize image).
Proof. unfold normalize. repeat quiet_step. Qed.

Lemma quiet_resize_step image : quiet (resize_step image).
Proof. unfold resize_step. repeat quiet_step. Qed.

Lemma quiet_remove_background_step image :
  quiet (remove_background_step image).
Proof. unfold remove_background_step. repeat quiet_step. Qed.

Lemma quiet__enhance_image image : quiet (_enhance_image image).
Proof.
  apply quiet_log_and_reraise.
  apply quiet_bind; [apply quiet_normalize |]. intros ?. repeat quiet_step.
Qed.

Lemma quiet_enhance_step image : quiet (enhance_step image).
Proof.
  unfold enhance_step. repeat quiet_step. apply quiet__enhance_image.
Qed.

Lemma quiet_process_image image : quiet (process_image image).
Proof.
  apply quiet_log_and_reraise.
  apply quiet_bind; [apply quiet_normalize |]. intros ?.
  apply quiet_bind; [apply quiet_resize_step |]. intros ?.
  apply quiet_bind; [apply quiet_remove_background_step |]. intros ?.
  apply quiet_bind; [apply quiet_enhance_step |]. intros ?.
  apply quiet_normalize.
Qed.

Lemma quiet_save_image image output_format :
  quiet (save_image image output_format).
Proof.
  apply quiet_log_and_reraise.
  apply quiet_bind; [apply quiet_lift |]. intros up.
  apply quiet_bind; [destruct (decide _); [apply quiet_normalize | apply quiet_ret] |].
  intros ?. repeat quiet_step.
Qed.

Lemma quiet_encode_upload file : quiet (encode_upload file).
Proof.
  unfold encode_upload.
  apply quiet_bind; [apply quiet_lift |]. intros img.
  apply quiet_bind; [apply quiet_process_image |]. intros p.
  apply quiet_bind; [apply quiet_get_config |]. intros cfg.
  apply quiet_bind; [apply quiet_lift |]. intros fmt.
  apply quiet_save_image.
Qed.

End QuietProcessor.

(** ** Inversion of successful runs *)

Lemma result_bind_Ok {A B} (r : result A) (f : A → result B) b :
  r ≫= f = Ok b → ∃ a, r = Ok a ∧ f a = Ok b.
Proof. destruct r as [a|e]; [eauto | discriminate]. Qed.

Lemma lift_Ok {A} (r : result A) w a w' :
  lift r w = (Ok a, w') → r = Ok a ∧ w' = w.
Proof. unfold lift. by intros [= -> ->]. Qed.

Lemma ret_Ok {A} (x : A) w a w' :
  (mret x : M A) w = (Ok a, w') → a = x ∧ w' = w.
Proof. by intros [= -> ->]. Qed.

Lemma log_and_reraise_Ok {A} prefix (body : M A) w a w' :
  log_and_reraise prefix body w = (Ok a, w') → body w = (Ok a, w').
Proof.
  unfold log_and_reraise, try_except.
  destruct (body w) as [[x|e] w1]; [done | discriminate].
Qed.

Lemma log_and_reraise_Raise {A} prefix (body : M A) w e w' :
  log_and_reraise prefix body w = (Raise e, w') →
  last (logged w') = Some (prefix +:+ str e).
Proof.
  unfold log_and_reraise, try_except.
  destruct (body w) as [[x|e'] w1]; [discriminate |].
  rewrite bind_run. unfold logging_error, lift. intros [= <- <-].
  simpl. apply last_snoc.
Qed.

Lemma config_get_run section key w :
  config_get section key w =
  (getitem (config w) section ≫= (fun sec => subscript sec key), w).
Proof.
  unfold config_get, get_config, lift. rewrite bind_run, bind_run.
  by destruct (getitem (config w) section).
Qed.

Lemma config_get_Ok section key w v w' :
  config_get section key w = (Ok v, w') →
  config_lookup (config w) section key = Some v ∧ w' = w.
Proof.
  rewrite config_get_run. unfold config_lookup, getitem.
  destruct (config w !! section) as [sec|]; [| discriminate].
  destruct sec; try discriminate. simpl. unfold getitem.
  destruct (d !! key); [by intros [= -> ->] | discriminate].
Qed.

Lemma config_get_lookup section key w v :
  config_lookup (config w) section key = Some v →
  config_get section key w = (Ok v, w).
Proof.
  rewrite config_get_run. unfold config_lookup, getitem.
  destruct (config w !! section) as [sec|]; [| discriminate].
  destruct sec; try discriminate. simpl. unfold getitem. by intros ->.
Qed.

Lemma quiet_run {A} (m : M A) w :
  quiet m → ∃ l, (m w).2 = add_log w l.
Proof. intros Hq. destruct (Hq w w eq_refl) as (r & l & -> & _). by exists l. Qed.

Lemma quiet_config {A} (m : M A) w : quiet m → config (m w).2 = config w.
Proof. intros Hq. by destruct (quiet_run m w Hq) as [l ->]. Qed.

(** Splits a successful [bind] in a hypothesis into its two halves. *)
Ltac invert_bind Hrun :=
  let a := fresh "image" in
  let w := fresh "w" in
  let Hfirst := fresh "Hstep" in
  apply bind_Ok in Hrun as (a & w & Hfirst & Hrun).

(** ** The pipeline *)

Section Pipeline.
Context `{ExternalsLaws}.

Lemma normalize_mode image w out w' :
  normalize image w = (Ok out, w') → mode out = "RGB".
Proof.
  unfold normalize. destruct (decide (mode image ≠ "RGB")) as [Hne|Heq].
  - intros [Hc _]%lift_Ok. by apply convert_mode in Hc.
  - intros [-> _]%ret_Ok. by apply dec_stable.
Qed.

Lemma normalize_size image w out w' :
  normalize image w = (Ok out, w') → size out = size image.
Proof.
  unfold normalize. destruct (decide (mode image ≠ "RGB")).
  - intros [Hc _]%lift_Ok. by apply convert_size in Hc.
  - by intros [-> _]%ret_Ok.
Qed.

Lemma paste_size background image mask out :
  paste background image mask = Ok out → size out = size background.
Proof.
  unfold paste. destruct (decide _); [| discriminate]. by intros [= <-].
Qed.

Lemma Image_new_RGB_Ok sz color background :
  Image_new_RGB sz color = Ok background →
  mode background = "RGB" ∧ size background = sz.
Proof.
  unfold Image_new_RGB. intros (rgb & _ & [= <-])%result_bind_Ok.
  by destruct sz.
Qed.

Lemma paste_on_white_size image out :
  paste_on_white image = Ok out → size out = size image.
Proof.
  unfold paste_on_white.
  intros (background & Hnew & (alpha & _ & Hp)%result_bind_Ok)%result_bind_Ok.
  apply paste_size in Hp. apply Image_new_RGB_Ok in Hnew as [_ Hsz]. congruence.
Qed.

Lemma Image_new_RGBA_Ok w h color background :
  Image_new_RGBA w h color = Ok background →
  0 ≤ w ∧ 0 ≤ h ∧
  background = mkImage "RGBA" (Z.to_nat w) (Z.to_nat h)
                 (replicate (Z.to_nat w * Z.to_nat h) color).
Proof.
  unfold Image_new_RGBA. destruct (decide (w < 0 ∨ h < 0)); [discriminate |].
  intros [= <-]. repeat split; lia.
Qed.

Lemma ceil_half_bounds d : 0 ≤ d → 0 ≤ ceil_half d ≤ d.
Proof.
  intros Hd. unfold ceil_half. Z.to_euclidean_division_equations. lia.
Qed.

(** A pixel of a fresh canvas after a paste. *)
Lemma getpixel_paste_at cw ch pad inner x0 y0 x y :
  (x < cw)%nat → (y < ch)%nat →
  getpixel (paste_at (mkImage "RGBA" cw ch (replicate (cw * ch) pad)) inner x0 y0)
    x y =
  Some (if (0 <=? Z.of_nat x - x0) && (0 <=? Z.of_nat y - y0)
        then default pad (getpixel inner (Z.to_nat (Z.of_nat x - x0))
                            (Z.to_nat (Z.of_nat y - y0)))
        else pad).
Proof.
  intros Hx Hy. unfold getpixel at 1, paste_at. simpl.
  apply Nat.ltb_lt in Hx as Hx', Hy as Hy'. rewrite Hx', Hy'. simpl.
  rewrite list_lookup_imap.
  assert (Hi : (y * cw + x < cw * ch)%nat) by nia.
  rewrite lookup_replicate_2 by done. simpl.
  assert (Hmod : ((y * cw + x) mod cw = x)%nat).
  { rewrite Nat.add_comm, Nat.Div0.mod_add. by apply Nat.mod_small. }
  assert (Hdiv : ((y * cw + x) / cw = y)%nat).
  { rewrite Nat.add_comm, Nat.div_add by lia.
    rewrite Nat.div_small by done. done. }
  by rewrite Hmod, Hdiv.
Qed.

Lemma getpixel_bounds image x y p :
  getpixel image x y = Some p → (x < width image)%nat ∧ (y < height image)%nat.
Proof.
  unfold getpixel.
  destruct (x <? width image)%nat eqn:Hx; [| discriminate].
  destruct (y <? height image)%nat eqn:Hy; [| discriminate].
  apply Nat.ltb_lt in Hx, Hy. done.
Qed.

Lemma getpixel_outside image x y :
  ¬ ((x < width image)%nat ∧ (y < height image)%nat) →
  getpixel image x y = None.
Proof.
  intros Hout. destruct (getpixel image x y) as [p|] eqn:Hp; [| done].
  by apply getpixel_bounds in Hp.
Qed.

(** Pasting an image that fits on a fresh canvas places it. *)
Lemma paste_at_placed cw ch pad inner (x0 y0 : nat) :
  (x0 + width inner ≤ cw)%nat → (y0 + height inner ≤ ch)%nat →
  placed inner
    (paste_at (mkImage "RGBA" cw ch (replicate (cw * ch) pad)) inner
       (Z.of_nat x0) (Z.of_nat y0))
    x0 y0 pad.
Proof.
  intros Hw Hh. split; [done |]. split; [done |]. split.
  - intros x y p Hp. pose proof (getpixel_bounds _ _ _ _ Hp) as [Hx Hy].
    rewrite getpixel_paste_at by lia.
    replace (Z.of_nat (x0 + x) - Z.of_nat x0) with (Z.of_nat x) by lia.
    replace (Z.of_nat (y0 + y) - Z.of_nat y0) with (Z.of_nat y) by lia.
    rewrite !Nat2Z.id, Hp.
    destruct (0 <=? Z.of_nat x) eqn:E1; [| apply Z.leb_gt in E1; lia].
    destruct (0 <=? Z.of_nat y) eqn:E2; [| apply Z.leb_gt in E2; lia].
    done.
  - simpl. intros x y Hx Hy Hout. rewrite getpixel_paste_at by done.
    destruct (0 <=? Z.of_nat x - Z.of_nat x0) eqn:E1; [| done].
    destruct (0 <=? Z.of_nat y - Z.of_nat y0) eqn:E2; [| done].
    apply Z.leb_le in E1, E2. simpl.
    rewrite getpixel_outside; [done |]. lia.
Qed.

(** What a successful [resize_contain] was made of: the thumbnail of the
    image, made RGBA, placed in the middle of the padding. *)
Lemma resize_contain_Ok image w h out :
  resize_contain image [VInt w; VInt h] = Ok out →
  ∃ thumb shown,
    thumbnail image (VInt w) (VInt h) = Ok thumb ∧
    (if decide (mode thumb = "RGBA") then Ok thumb else convert thumb "RGBA")
    = Ok shown ∧
    Z.of_nat (width out) = w ∧ Z.of_nat (height out) = h ∧
    mode out = "RGBA" ∧
    placed shown out
      (Z.to_nat (ceil_half (w - Z.of_nat (width thumb))))
      (Z.to_nat (ceil_half (h - Z.of_nat (height thumb))))
      [255; 255; 255; 0].
Proof.
  unfold resize_contain, list_index. simpl.
  intros (thumb & Hthumb & Hrun)%result_bind_Ok.
  apply result_bind_Ok in Hrun as (background & Hnew & Hrun).
  apply result_bind_Ok in Hrun as (pasted & Hpaste & Hconv).
  apply Image_new_RGBA_Ok in Hnew as (Hw & Hh & ->).
  unfold paste_on_canvas in Hpaste.
  apply result_bind_Ok in Hpaste as (shown & Hshown & [= <-]).
  pose proof (thumbnail_fits _ _ _ _ Hthumb) as [Hfw Hfh].
  assert (Hsize : size shown = size thumb).
  { destruct (decide _); [by injection Hshown as -> |].
    by apply convert_size in Hshown. }
  unfold size in Hsize. injection Hsize as Hsw Hsh.
  pose proof (ceil_half_bounds (w - Z.of_nat (width thumb))) as Hx0.
  pose proof (ceil_half_bounds (h - Z.of_nat (height thumb))) as Hy0.
  set (x0 := ceil_half (w - Z.of_nat (width thumb))) in *.
  set (y0 := ceil_half (h - Z.of_nat (height thumb))) in *.
  rewrite <- (Z2Nat.id x0), <- (Z2Nat.id y0) in Hconv by lia.
  match type of Hconv with convert ?img _ = _ =>
    assert (Hsame : convert img "RGBA" = Ok img)
      by apply (convert_same img)
  end.
  rewrite Hsame in Hconv. injection Hconv as <-.
  exists thumb, shown. split; [done |]. split; [done |].
  simpl. split; [lia |]. split; [lia |]. split; [done |].
  apply paste_at_placed; lia.
Qed.

Lemma resize_contain_size image w h out :
  resize_contain image [VInt w; VInt h] = Ok out →
  Z.of_nat (width out) = w ∧ Z.of_nat (height out) = h.
Proof. intros (? & ? & _ & _ & ? & ? & _)%resize_contain_Ok. done. Qed.

Lemma normalize_state image w out w' :
  normalize image w = (Ok out, w') → w' = w.
Proof.
  unfold normalize. destruct (decide _).
  - by intros [_ ->]%lift_Ok.
  - by intros [_ ->]%ret_Ok.
Qed.

Lemma resize_step_on image w wd ht flag out w' :
  config_lookup (config w) "operations" "resize" = Some flag →
  truthy flag = true →
  config_lookup (config w) "dimensions" "width" = Some (VInt wd) →
  config_lookup (config w) "dimensions" "height" = Some (VInt ht) →
  resize_step image w = (Ok out, w') →
  resize_contain image [VInt wd; VInt ht] = Ok out ∧ w' = w.
Proof.
  intros Hflag Ht Hw Hh. unfold resize_step. rewrite bind_run.
  rewrite (config_get_lookup _ _ _ _ Hflag), Ht.
  rewrite bind_run, (config_get_lookup _ _ _ _ Hw).
  rewrite bind_run, (config_get_lookup _ _ _ _ Hh).
  by intros [Hr ->]%lift_Ok.
Qed.

Lemma resize_step_size image w wd ht flag out w' :
  config_lookup (config w) "operations" "resize" = Some flag →
  truthy flag = true →
  config_lookup (config w) "dimensions" "width" = Some (VInt wd) →
  config_lookup (config w) "dimensions" "height" = Some (VInt ht) →
  resize_step image w = (Ok out, w') →
  Z.of_nat (width out) = wd ∧ Z.of_nat (height out) = ht.
Proof.
  intros Hflag Ht Hw Hh. unfold resize_step. rewrite bind_run.
  rewrite (config_get_lookup _ _ _ _ Hflag), Ht.
  rewrite bind_run, (config_get_lookup _ _ _ _ Hw).
  rewrite bind_run, (config_get_lookup _ _ _ _ Hh).
  intros [Hr _]%lift_Ok. by apply resize_contain_size in Hr.
Qed.

Lemma remove_background_step_size image w out w' :
  remove_background_step image w = (Ok out, w') → size out = size image.
Proof.
  unfold remove_background_step. intros Hrun. invert_bind Hrun.
  destruct (truthy _); [| by apply ret_Ok in Hrun as [-> _]].
  invert_bind Hrun. apply lift_Ok in Hstep0 as [Hrm _].
  apply remove_size in Hrm. rewrite <- Hrm.
  destruct (decide _).
  - apply lift_Ok in Hrun as [Hp _]. by apply paste_on_white_size.
  - by apply ret_Ok in Hrun as [-> _].
Qed.

Lemma _enhance_image_size image w out w' :
  _enhance_image image w = (Ok out, w') → size out = size image.
Proof.
  intros Hrun%log_and_reraise_Ok. do 3 invert_bind Hrun.
  apply normalize_size in Hstep.
  apply lift_Ok in Hstep0 as [?%enhance_size _].
  apply lift_Ok in Hstep1 as [?%enhance_size _].
  apply lift_Ok in Hrun as [?%enhance_size _]. congruence.
Qed.

Lemma enhance_step_size image w out w' :
  enhance_step image w = (Ok out, w') → size out = size image.
Proof.
  unfold enhance_step. intros Hrun. invert_bind Hrun.
  destruct (truthy _); [by apply _enhance_image_size in Hrun |].
  by apply ret_Ok in Hrun as [-> _].
Qed.

(** C1.  Whatever the image and the three flags (the configuration is
    arbitrary), [process_image] either returns an image whose mode is RGB
    or raises after logging the error: the last step converts whatever is
    not RGB. *)
Theorem process_image_returns_RGB image w :
  match process_image image w with
  | (Ok out, _) => mode out = "RGB"
  | (Raise e, w') =>
      last (logged w') = Some ("Error processing image: " +:+ str e)
  end.
Proof.
  destruct (process_image image w) as [[out|e] w'] eqn:Hrun.
  - apply log_and_reraise_Ok in Hrun. do 4 invert_bind Hrun.
    by apply normalize_mode in Hrun.
  - by apply log_and_reraise_Raise in Hrun.
Qed.

(** C4.  When the resize flag of the configuration is on and the
    configured dimensions are the integers [wd] and [ht], the image
    returned by [process_image] is exactly [wd] wide and [ht] high,
    whatever the size of the input, and it was made by contain
    resizing: the normalized image is shrunk to a thumbnail that fits
    in the box (it is the image itself when that already fits), the
    whole thumbnail is placed in the middle of a canvas of the
    configured size, every pixel around it is transparent white padding,
    and the later steps, which keep the size, start from that canvas.
    (The other outcome is an exception raised by a step, logged and
    raised again.) *)
Theorem process_image_resizes_to_configured image w flag wd ht :
  config_lookup (config w) "operations" "resize" = Some flag →
  truthy flag = true →
  config_lookup (config w) "dimensions" "width" = Some (VInt wd) →
  config_lookup (config w) "dimensions" "height" = Some (VInt ht) →
  match process_image image w with
  | (Ok out, _) =>
      Z.of_nat (width out) = wd ∧ Z.of_nat (height out) = ht ∧
      ∃ normalized thumb shown resized,
        normalize image w = (Ok normalized, w) ∧
        thumbnail normalized (VInt wd) (VInt ht) = Ok thumb ∧
        Z.of_nat (width thumb) ≤ wd ∧ Z.of_nat (height thumb) ≤ ht ∧
        (Z.of_nat (width normalized) ≤ wd → Z.of_nat (height normalized) ≤ ht →
         thumb = normalized) ∧
        convert thumb "RGBA" = Ok shown ∧
        size shown = size thumb ∧
        resize_step normalized w = (Ok resized, w) ∧
        Z.of_nat (width resized) = wd ∧ Z.of_nat (height resized) = ht ∧
        placed shown resized
          (Z.to_nat (ceil_half (wd - Z.of_nat (width thumb))))
          (Z.to_nat (ceil_half (ht - Z.of_nat (height thumb))))
          [255; 255; 255; 0] ∧
        (remove_background_step resized ≫= fun image =>
           enhance_step image ≫= normalize) w = (Ok out, w)
  | (Raise e, w') =>
      last (logged w') = Some ("Error processing image: " +:+ str e)
  end.
Proof.
  intros Hflag Ht Hw Hh.
  destruct (process_image image w) as [[out|e] w'] eqn:Hrun;
    [| by apply log_and_reraise_Raise in Hrun].
  apply log_and_reraise_Ok in Hrun.
  apply bind_Ok in Hrun as (normalized & w0 & Hnorm & Hrun).
  pose proof (normalize_state _ _ _ _ Hnorm) as ->.
  apply bind_Ok in Hrun as (resized & w1 & Hresize & Hrest).
  destruct (resize_step_on _ _ _ _ _ _ _ Hflag Ht Hw Hh Hresize) as [Hrc ->].
  destruct (resize_contain_Ok _ _ _ _ Hrc)
    as (thumb & shown & Hthumb & Hshown & Hrw & Hrh & _ & Hplaced).
  pose proof (thumbnail_fits _ _ _ _ Hthumb) as [Hfw Hfh].
  assert (Hmode : mode thumb = "RGB").
  { rewrite (thumbnail_mode _ _ _ _ Hthumb). by apply normalize_mode in Hnorm. }
  rewrite decide_False in Hshown by (rewrite Hmode; discriminate).
  assert (Hout : size out = size resized).
  { pose proof Hrest as Hrest'.
    apply bind_Ok in Hrest' as (i2 & w2 & H2 & Hrest').
    apply bind_Ok in Hrest' as (i3 & w3 & H3 & H4).
    apply remove_background_step_size in H2.
    apply enhance_step_size in H3. apply normalize_size in H4. congruence. }
  unfold size in Hout. injection Hout as Hwo Hho.
  split; [lia |]. split; [lia |].
  exists normalized, thumb, shown, resized.
  split; [done |]. split; [done |]. split; [done |]. split; [done |].
  split.
  { intros Hiw Hih. pose proof (thumbnail_unchanged normalized wd ht Hiw Hih).
    congruence. }
  split; [done |]. split; [by apply convert_size in Hshown |].
  split; [done |]. split; [done |]. split; [done |]. split; [done |].
  assert (w' = w) as ->; [| exact Hrest].
  pose proof Hrest as Hlast.
  apply bind_Ok in Hlast as (i2 & w2 & H2 & Hlast).
  apply bind_Ok in Hlast as (i3 & w3 & H3 & H4).
  apply normalize_state in H4 as ->.
  assert (w3 = w2) as ->.
  { revert H3. unfold enhance_step. intros H3.
    apply bind_Ok in H3 as (fl & w4 & [_ ->]%config_get_Ok & H3).
    destruct (truthy fl); [| by apply ret_Ok in H3 as [_ ->]].
    apply log_and_reraise_Ok in H3.
    apply bind_Ok in H3 as (? & ? & ->%normalize_state & H3).
    apply bind_Ok in H3 as (? & ? & [_ ->]%lift_Ok & H3).
    apply bind_Ok in H3 as (? & ? & [_ ->]%lift_Ok & H3).
    by apply lift_Ok in H3 as [_ ->]. }
  revert H2. unfold remove_background_step. intros H2.
  apply bind_Ok in H2 as (fl & w4 & [_ ->]%config_get_Ok & H2).
  destruct (truthy fl); [| by apply ret_Ok in H2 as [_ ->]].
  apply bind_Ok in H2 as (? & ? & [_ ->]%lift_Ok & H2).
  destruct (decide _); [by apply lift_Ok in H2 as [_ ->] |].
  by apply ret_Ok in H2 as [_ ->].
Qed.

(** C7.  On an image that is already RGB the normalize step returns the
    very same image and leaves the state alone, applied once or twice. *)
Theorem normalize_idempotent_on_RGB image w :
  mode image = "RGB" →
  normalize image w = (Ok image, w) ∧
  (normalize image ≫= normalize) w = (Ok image, w).
Proof.
  intros Hm.
  assert (Hn : normalize image w = (Ok image, w)).
  { unfold normalize. by destruct (decide (mode image ≠ "RGB")). }
  split; [done |]. by rewrite bind_run, Hn.
Qed.

End Pipeline.

(** ** Compositing after the background removal *)

Lemma blend8_transparent bg fg : 0 ≤ bg ≤ 255 → blend8 0 bg fg = bg.
Proof.
  intros Hb. unfold blend8. rewrite !Z.shiftr_div_pow2 by lia.
  change (2 ^ 8) with 256. Z.to_euclidean_division_equations. lia.
Qed.

Lemma blend8_opaque bg fg : 0 ≤ fg ≤ 255 → blend8 255 bg fg = fg.
Proof.
  intros Hf. unfold blend8. rewrite !Z.shiftr_div_pow2 by lia.
  change (2 ^ 8) with 256. Z.to_euclidean_division_equations. lia.
Qed.

Lemma getpixel_index image x y p :
  getpixel image x y = Some p →
  (x < width image)%nat ∧ (y < height image)%nat ∧
  pixels image !! (y * width image + x)%nat = Some p.
Proof.
  unfold getpixel.
  destruct (x <? width image)%nat eqn:Hx; [| discriminate].
  destruct (y <? height image)%nat eqn:Hy; [| discriminate].
  apply Nat.ltb_lt in Hx, Hy. done.
Qed.

Lemma getpixel_getband image k x y p :
  getpixel image x y = Some p →
  getpixel (getband image k) x y = Some [default 0 (p !! k)].
Proof.
  intros Hp. pose proof Hp as (Hx & Hy & Hl)%getpixel_index.
  revert Hp. unfold getpixel, getband. simpl.
  destruct (_ && _); [| discriminate]. intros _.
  by rewrite list_lookup_fmap, Hl.
Qed.

Lemma split_RGBA image :
  mode image = "RGBA" → tuple_index (split image) 3 = Ok (getband image 3).
Proof. intros Hm. unfold split. by rewrite Hm. Qed.

Lemma paste_on_white_run image :
  mode image = "RGBA" →
  paste_on_white image =
  paste (mkImage "RGB" (width image) (height image)
           (replicate (width image * height image) [255; 255; 255]))
        image (getband image 3).
Proof. intros Hm. unfold paste_on_white. by rewrite (split_RGBA _ Hm). Qed.

Section Compositing.
Context `{Externals}.

(** C2, as amended.  When the flag is on and the segmentation returns an
    RGBA image, the step returns an RGB image of the same size in which
    every pixel is the blend, under the alpha value of the segmented
    pixel, of its three color values with white: the fill color is the
    constant ['white'], and [backgrounds.default_color] is not read. *)
Theorem remove_background_composites_on_white image w flag out :
  config_lookup (config w) "operations" "remove_background" = Some flag →
  truthy flag = true →
  remove image = Ok out →
  mode out = "RGBA" →
  ∃ res,
    remove_background_step image w = (Ok res, w) ∧
    paste_on_white out = Ok res ∧
    mode res = "RGB" ∧
    size res = size out ∧
    ∀ x y r g b a,
      getpixel out x y = Some [r; g; b; a] →
      getpixel res x y = Some [blend8 a 255 r; blend8 a 255 g; blend8 a 255 b].
Proof.
  intros Hflag Ht Hrm Hm.
  set (white := mkImage "RGB" (width out) (height out)
                  (replicate (width out * height out) [255; 255; 255])).
  assert (Hpaste : ∃ res, paste white out (getband out 3) = Ok res ∧
                          mode res = "RGB" ∧ size res = size out ∧
                          pixels res =
                            imap (fun i (p : pixel) =>
                              match getpixel out (i mod width out) (i / width out),
                                    getpixel (getband out 3) (i mod width out)
                                      (i / width out) with
                              | Some q, Some (m :: _) => zip_with (blend8 m) p q
                              | _, _ => p
                              end) (pixels white)).
  { unfold paste. rewrite decide_True by done. eauto. }
  destruct Hpaste as (res & Hres & Hmode & Hsize & Hpix). subst white.
  exists res. split; [| split; [| split; [| split]]]; try done.
  - unfold remove_background_step.
    rewrite bind_run, (config_get_lookup _ _ _ _ Hflag), Ht.
    rewrite bind_run. unfold lift at 1. rewrite Hrm.
    rewrite decide_True by done. unfold lift.
    by rewrite (paste_on_white_run _ Hm), Hres.
  - by rewrite (paste_on_white_run _ Hm).
  - intros x y r g b a Hp.
    pose proof Hp as (Hx & Hy & Hl)%getpixel_index.
    assert (Hw : width res = width out ∧ height res = height out).
    { unfold size in Hsize. by injection Hsize. }
    destruct Hw as [Hw Hh].
    unfold getpixel. rewrite Hw, Hh.
    apply Nat.ltb_lt in Hx as Hx', Hy as Hy'. rewrite Hx', Hy'. simpl.
    rewrite Hpix, list_lookup_imap. simpl.
    assert (Hi : (y * width out + x < width out * height out)%nat) by nia.
    rewrite lookup_replicate_2 by done. simpl.
    assert (Hmod : ((y * width out + x) mod width out = x)%nat).
    { rewrite Nat.add_comm, Nat.Div0.mod_add. by apply Nat.mod_small. }
    assert (Hdiv : ((y * width out + x) / width out = y)%nat).
    { rewrite Nat.add_comm, Nat.div_add by lia.
      rewrite Nat.div_small by done. done. }
    rewrite Hmod, Hdiv, Hp, (getpixel_getband _ 3 _ _ _ Hp). done.
Qed.

End Compositing.

(** ** The loop over the uploads *)

Section Batch.
Context `{Externals}.

Lemma outcome_config w w' file :
  config w = config w' → outcome w file = outcome w' file.
Proof.
  intros Hc. unfold outcome.
  by destruct (quiet_encode_upload file w w' Hc) as (r & l & -> & ->).
Qed.

Lemma encode_upload_run file w :
  ∃ l, encode_upload file w = (outcome w file, add_log w l).
Proof.
  unfold outcome.
  destruct (quiet_encode_upload file w w eq_refl) as (r & l & -> & _). eauto.
Qed.

Lemma fate_of_config w w' t file :
  config w = config w' → fate_of w t file = fate_of w' t file.
Proof. intros Hc. unfold fate_of. by rewrite (outcome_config w w' file Hc). Qed.

Lemma ticks_config w w' file :
  config w = config w' → ticks w file = ticks w' file.
Proof. intros Hc. unfold ticks. by rewrite (outcome_config w w' file Hc). Qed.

Lemma fates_config w w' fl :
  config w = config w' → ∀ t, fates w t fl = fates w' t fl.
Proof.
  intros Hc. induction fl as [|file rest IH]; intros t; [done |].
  simpl. by rewrite (fate_of_config w w' t file Hc), (ticks_config w w' file Hc), IH.
Qed.

Lemma readings_config w w' fl :
  config w = config w' → readings w fl = readings w' fl.
Proof.
  intros Hc. unfold readings. f_equal. apply list_fmap_ext.
  intros i file _. by apply ticks_config.
Qed.

Lemma archived_cons f fs : archived (f :: fs) = archived [f] ++ archived fs.
Proof. unfold archived. csimpl. by destruct f. Qed.

Lemma complaints_cons f fs :
  complaints (f :: fs) = complaints [f] ++ complaints fs.
Proof. unfold complaints. csimpl. by destruct f. Qed.

Lemma readings_cons w file rest :
  readings w (file :: rest) = (ticks w file + readings w rest)%nat.
Proof. reflexivity. Qed.

Lemma length_fates w fl : ∀ t, length (fates w t fl) = length fl.
Proof. induction fl as [|file rest IH]; intros t; [done |]. simpl. by rewrite IH. Qed.

(** The verdict at a place of the list is the fate of the upload at that
    place. *)
Lemma fates_lookup w fl : ∀ t i file,
  fl !! i = Some file → ∃ t', fates w t fl !! i = Some (fate_of w t' file).
Proof.
  induction fl as [|f rest IH]; intros t i file Hi; [done |].
  destruct i as [|i]; simpl in *.
  - injection Hi as ->. eauto.
  - by apply IH.
Qed.

(** One turn of the loop: the archive gains the entry of an upload that is
    archived and nothing otherwise, the clock is read once for an upload
    that is encoded, the handler's line for a failed upload is among the
    lines logged, and the configuration stays. *)
Lemma process_file_run zf file w :
  ∃ l,
    process_file zf file w =
    (Ok (zf ++ archived [fate_of w (clock w) file]),
     mkWorld (config w) (logged w ++ l) (clock w + ticks w file)) ∧
    ∀ msg, msg ∈ complaints [fate_of w (clock w) file] → msg ∈ l.
Proof.
  unfold process_file, fate_of, ticks.
  destruct (named file) as [name|] eqn:Hn.
  2: { exists []. split; [| by intros msg ?%elem_of_nil].
       unfold archived. simpl. rewrite !app_nil_r, Nat.add_0_r. by destruct w. }
  destruct (encode_upload_run file w) as [l Hrun].
  unfold try_except, archive_upload. rewrite !bind_run, Hrun.
  destruct (outcome w file) as [data|e].
  - rewrite bind_run. unfold now at 1. simpl. unfold lift, writestr.
    destruct (zip_entry (entry_name (strftime_now (clock w)) name) data)
      as [entry|e] eqn:Hentry; simpl.
    + exists l. split; [| by intros msg ?%elem_of_nil].
      unfold archived. simpl. by rewrite Nat.add_1_r.
    + exists (l ++ ["Error processing " +:+ name +:+ ": " +:+ str e]).
      split.
      * rewrite bind_run. unfold logging_error, add_log, archived. simpl.
        by rewrite app_nil_r, Nat.add_1_r, app_assoc.
      * unfold complaints. simpl. intros msg ->%list_elem_of_singleton.
        apply elem_of_app. right. by apply list_elem_of_singleton.
  - exists (l ++ ["Error processing " +:+ name +:+ ": " +:+ str e]).
    split.
    + rewrite bind_run. unfold logging_error, archived. simpl.
      by rewrite app_nil_r, Nat.add_0_r, add_log_app.
    + unfold complaints. simpl. intros msg ->%list_elem_of_singleton.
      apply elem_of_app. right. by apply list_elem_of_singleton.
Qed.

Lemma process_files_run fl : ∀ zf w,
  ∃ l,
    process_files fl zf w =
    (Ok (zf ++ archived (fates w (clock w) fl)),
     mkWorld (config w) (logged w ++ l) (clock w + readings w fl)) ∧
    ∀ msg, msg ∈ complaints (fates w (clock w) fl) → msg ∈ l.
Proof.
  induction fl as [|file rest IH]; intros zf w.
  - exists []. split; [| by intros msg ?%elem_of_nil].
    simpl. unfold archived, readings. simpl.
    rewrite !app_nil_r, Nat.add_0_r. by destruct w.
  - cbn [process_files fates]. rewrite bind_run.
    destruct (process_file_run zf file w) as (l0 & -> & Hlog0).
    set (w2 := mkWorld (config w) (logged w ++ l0) (clock w + ticks w file)).
    destruct (IH (zf ++ archived [fate_of w (clock w) file]) w2)
      as (l2 & -> & Hlog2).
    rewrite (fates_config w2 w rest eq_refl), (readings_config w2 w rest eq_refl)
      in *.
    exists (l0 ++ l2). split.
    + rewrite (archived_cons (fate_of w (clock w) file)
                 (fates w (clock w + ticks w file) rest)), readings_cons.
      cbn [config logged clock w2].
      by rewrite <- !app_assoc, Nat.add_assoc.
    + intros msg.
      rewrite (complaints_cons (fate_of w (clock w) file)
                 (fates w (clock w + ticks w file) rest)).
      intros [?|?]%elem_of_app; apply elem_of_app; [left | right]; eauto.
Qed.

End Batch.

(** ** The handler *)

Section HandlerProperties.
Context `{Externals}.

Lemma update_operations_run req w ops fields :
  config w !! "operations" = Some (VDict ops) →
  form req = Ok fields →
  update_operations req w =
  (Ok (), mkWorld (<["operations" := VDict (updated_operations fields ops)]>
                     (config w))
            (logged w) (clock w)).
Proof. intros Hops Hform. unfold update_operations. by rewrite Hops, Hform. Qed.

Lemma update_operations_unreadable req w ops e :
  config w !! "operations" = Some (VDict ops) →
  form req = Raise e →
  update_operations req w = (Raise e, w).
Proof. intros Hops Hform. unfold update_operations. by rewrite Hops, Hform. Qed.

Lemma update_operations_Raise req w :
  (∀ ops, config w !! "operations" ≠ Some (VDict ops)) →
  ∃ e, update_operations req w = (Raise e, w).
Proof.
  intros Hops. unfold update_operations.
  destruct (config w !! "operations") as [v|]; [| eauto].
  destruct v; eauto. by destruct (Hops d).
Qed.

(** The way out through the outer [except]. *)
Lemma process_images_raise req w e :
  update_operations req w = (Raise e, w) →
  process_images req w =
  (Ok (text_response (str e) 500), add_log w ["Processing error: " +:+ str e]).
Proof.
  intros Hup. unfold process_images, try_except. by rewrite bind_run, Hup.
Qed.

(** A readable request without the [images] field, on a configuration
    whose [operations] entry is a dictionary. *)
Lemma process_images_no_images req w ops fields :
  config w !! "operations" = Some (VDict ops) →
  form req = Ok fields →
  files req !! "images" = None →
  process_images req w =
  (Ok (text_response "No files uploaded" 400),
   mkWorld (<["operations" := VDict (updated_operations fields ops)]> (config w))
     (logged w) (clock w)).
Proof.
  intros Hops Hform Hfiles. unfold process_images, try_except.
  by rewrite bind_run, (update_operations_run _ _ _ _ Hops Hform), Hfiles.
Qed.

(** A readable request with the [images] field, on such a
    configuration. *)
Lemma process_images_batch req w ops fields fl :
  config w !! "operations" = Some (VDict ops) →
  form req = Ok fields →
  files req !! "images" = Some fl →
  let w1 := mkWorld (<["operations" := VDict (updated_operations fields ops)]>
                       (config w))
              (logged w) (clock w) in
  ∃ l,
    process_images req w =
    (Ok (send_file (archived (fates w1 (clock w) fl)) "application/zip"
           ("processed_images_" +:+ strftime_now (clock w + readings w1 fl)
              +:+ ".zip")),
     mkWorld (config w1) (logged w ++ l) (S (clock w + readings w1 fl))) ∧
    ∀ msg, msg ∈ complaints (fates w1 (clock w) fl) → msg ∈ l.
Proof.
  intros Hops Hform Hfiles w1.
  destruct (process_files_run fl [] w1) as (l & Hrun & Hlog).
  exists l. split; [| done].
  unfold process_images, try_except.
  rewrite bind_run, (update_operations_run _ _ _ _ Hops Hform), Hfiles.
  fold w1. by rewrite bind_run, Hrun.
Qed.

(** What a request does to the configuration: nothing, or the update of
    the three flags from its form. *)
Lemma process_images_config req w :
  config (process_images req w).2 = config w ∨
  ∃ ops fields,
    config w !! "operations" = Some (VDict ops) ∧
    form req = Ok fields ∧
    config (process_images req w).2 =
    <["operations" := VDict (updated_operations fields ops)]> (config w).
Proof.
  destruct (config w !! "operations") as [v|] eqn:Hops.
  2: { left. destruct (update_operations_Raise req w) as [e He];
         [by rewrite Hops |].
       by rewrite (process_images_raise _ _ _ He). }
  assert (Hdict : (∃ ops, v = VDict ops) ∨ ∀ ops, v ≠ VDict ops)
    by (destruct v; eauto).
  destruct Hdict as [[ops ->] | Hv].
  2: { left. destruct (update_operations_Raise req w) as [e He].
       { rewrite Hops. intros ops [= ->]. by destruct (Hv ops). }
       by rewrite (process_images_raise _ _ _ He). }
  destruct (form req) as [fields|e] eqn:Hform.
  2: { left.
       by rewrite (process_images_raise _ _ _
                     (update_operations_unreadable _ _ _ _ Hops Hform)). }
  right. exists ops, fields. split; [done |]. split; [done |].
  destruct (files req !! "images") as [fl|] eqn:Hfiles.
  - destruct (process_images_batch req w ops fields fl Hops Hform Hfiles)
      as (l & -> & _).
    done.
  - by rewrite (process_images_no_images req w ops fields Hops Hform Hfiles).
Qed.

Lemma default_config_operations :
  ∃ ops, default_config !! "operations" = Some (VDict ops).
Proof. eexists. reflexivity. Qed.

Lemma default_config_flags : default_config = flags_config true false true.
Proof. symmetry. by apply insert_id. Qed.

Lemma updated_operations_flags fields r b e :
  updated_operations fields (flags r b e) =
  flags (in_form fields "resize") (in_form fields "remove_background")
    (in_form fields "enhance").
Proof.
  apply map_eq. intros k. unfold updated_operations, flags. simpl.
  destruct (decide (k = "enhance")) as [->|]; [by simplify_map_eq |].
  destruct (decide (k = "remove_background")) as [->|]; [by simplify_map_eq |].
  destruct (decide (k = "resize")) as [->|]; [by simplify_map_eq |].
  destruct (decide (k = "watermark")) as [->|]; by simplify_map_eq.
Qed.

(** The configuration of the running application is always the default
    one up to the three flags, which hold booleans. *)
Lemma reachable_config w :
  reachable w → ∃ r b e, config w = flags_config r b e.
Proof.
  induction 1 as [fs cfg l t Hload | w req _ (r & b & e & Hcfg)].
  - injection Hload as <-. exists true, false, true.
    apply default_config_flags.
  - destruct (process_images_config req w)
      as [-> | (ops & fields & Hops & _ & ->)]; [eauto |].
    rewrite Hcfg in Hops |- *. unfold flags_config in Hops.
    rewrite lookup_insert_eq in Hops. injection Hops as <-.
    eexists _, _, _. unfold flags_config.
    by rewrite insert_insert_eq, updated_operations_flags.
Qed.

(** In every state of the running application the [operations] entry is
    a dictionary. *)
Lemma reachable_operations w :
  reachable w → ∃ ops, config w !! "operations" = Some (VDict ops).
Proof.
  intros (r & b & e & ->)%reachable_config. eexists.
  unfold flags_config. apply lookup_insert_eq.
Qed.

(** A named upload never goes by unnoticed: its turn of the loop reads
    the clock or writes to the log. *)
Lemma process_file_observable zf file name w :
  named file = Some name →
  let w' := (process_file zf file w).2 in
  clock w' = S (clock w) ∨ (length (logged w) < length (logged w'))%nat.
Proof.
  intros Hn. destruct (process_file_run zf file w) as (l & -> & Hlog).
  simpl. revert Hlog. unfold ticks, fate_of. rewrite Hn.
  destruct (outcome w file) as [data|e]; [left; lia |].
  intros Hlog. right.
  assert (Hin : ("Error processing " +:+ name +:+ ": " +:+ str e) ∈ l).
  { apply Hlog. unfold complaints. simpl. by apply list_elem_of_singleton. }
  rewrite length_app. destruct l; [by apply elem_of_nil in Hin | simpl; lia].
Qed.

(** An upload is archived exactly when it has a name, is opened,
    processed and encoded without an exception, and the name of its entry
    fits the header; the entry then carries the encoded bytes under the
    name cut at its first NUL. *)
Lemma fate_of_Archived w t file entry :
  fate_of w t file = Archived entry ↔
  ∃ name data,
    named file = Some name ∧
    outcome w file = Ok data ∧
    Z.of_nat (String.length (zip_name (entry_name (strftime_now t) name)))
      ≤ 65535 ∧
    entry = (zip_name (entry_name (strftime_now t) name), data).
Proof.
  unfold fate_of, zip_entry. split.
  - destruct (named file) as [name|]; [| done].
    destruct (outcome w file) as [data|e]; [| done].
    destruct (decide _); [done |]. intros [= <-].
    exists name, data. repeat split; lia.
  - intros (name & data & -> & -> & Hlen & ->).
    by rewrite decide_False by lia.
Qed.

(** C3, as amended.  In the running application, a request whose form
    can be read and which carries the [images] field is answered 200.
    Each upload has its own verdict, the fate of that upload alone: an
    exception raised while it is opened, processed, encoded or written
    to the archive makes it fail, which costs it its entry and logs a
    line naming it, and the loop goes on.  The archive holds exactly
    the entries of the uploads that were archived, in upload order. *)
Theorem batch_skips_failed_uploads w req fields fl :
  reachable w →
  form req = Ok fields →
  files req !! "images" = Some fl →
  let w1 := (update_operations req w).2 in
  let verdicts := fates w1 (clock w) fl in
  ∃ resp w',
    process_images req w = (Ok resp, w') ∧
    status resp = 200%nat ∧
    payload resp = Attachment (archived verdicts) ∧
    (∀ name e,
       Failed name e ∈ verdicts →
       ("Error processing " +:+ name +:+ ": " +:+ str e) ∈ logged w') ∧
    (∀ i file,
       fl !! i = Some file → ∃ t, verdicts !! i = Some (fate_of w1 t file)).
Proof.
  intros [ops Hops]%reachable_operations Hform Hfiles.
  rewrite (update_operations_run req w ops fields Hops Hform). simpl.
  destruct (process_images_batch req w ops fields fl Hops Hform Hfiles)
    as (l & -> & Hlog).
  eexists _, _. split; [done |]. split; [done |]. split; [done |]. split.
  - intros name e Hin. simpl. apply elem_of_app. right. apply Hlog.
    unfold complaints. apply list_elem_of_omap.
    by exists (Failed name e).
  - intros i file Hi. by apply fates_lookup.
Qed.

(** C5, as amended.  In the running application, a request whose form
    can be read and which has no [images] field is answered 400 with the
    text "No files uploaded", which Flask sends as text/html; apart from
    the three flags the state is as before, and in particular the clock
    was not read and nothing was logged, so no upload went through the
    loop. *)
Theorem missing_images_is_400 w req fields :
  reachable w →
  form req = Ok fields →
  files req !! "images" = None →
  ∃ resp w',
    process_images req w = (Ok resp, w') ∧
    status resp = 400%nat ∧
    payload resp = Text "No files uploaded" ∧
    mimetype resp = Some "text/html" ∧
    logged w' = logged w ∧
    clock w' = clock w.
Proof.
  intros [ops Hops]%reachable_operations Hform Hfiles.
  rewrite (process_images_no_images req w ops fields Hops Hform Hfiles).
  by eexists _, _.
Qed.

(** C8, as amended.  In the running application, for a request whose form
    can be read, the flags are written before the [images] field is
    looked at: whatever the request carries, the three flags of the
    shared configuration afterwards say which of the three fields the
    form had, and this is so also when the request is answered 400 for
    lack of that field. *)
Theorem missing_images_still_sets_flags w req fields :
  reachable w →
  form req = Ok fields →
  ∃ resp w',
    process_images req w = (Ok resp, w') ∧
    (files req !! "images" = None → status resp = 400%nat) ∧
    config_lookup (config w') "operations" "resize"
      = Some (VBool (in_form fields "resize")) ∧
    config_lookup (config w') "operations" "remove_background"
      = Some (VBool (in_form fields "remove_background")) ∧
    config_lookup (config w') "operations" "enhance"
      = Some (VBool (in_form fields "enhance")).
Proof.
  intros [ops Hops]%reachable_operations Hform.
  assert (Hflags : ∀ cfg : gmap string value,
    config_lookup
      (<["operations" := VDict (updated_operations fields ops)]> cfg)
      "operations" "resize" = Some (VBool (in_form fields "resize")) ∧
    config_lookup
      (<["operations" := VDict (updated_operations fields ops)]> cfg)
      "operations" "remove_background"
      = Some (VBool (in_form fields "remove_background")) ∧
    config_lookup
      (<["operations" := VDict (updated_operations fields ops)]> cfg)
      "operations" "enhance" = Some (VBool (in_form fields "enhance"))).
  { intros cfg. unfold config_lookup. rewrite lookup_insert_eq.
    unfold updated_operations. by simplify_map_eq. }
  destruct (files req !! "images") as [fl|] eqn:Hfiles.
  - destruct (process_images_batch req w ops fields fl Hops Hform Hfiles)
      as (l & -> & _).
    eexists _, _. split; [done |]. split; [done |]. apply Hflags.
  - rewrite (process_images_no_images req w ops fields Hops Hform Hfiles).
    eexists _, _. split; [done |]. split; [done |]. apply Hflags.
Qed.

(** C9.  Whatever the request and the state, handling it leaves every
    top-level entry of the configuration other than [operations] as it
    was, and inside [operations] every flag other than the three it
    writes: the dimensions, the output format, the quality, the
    backgrounds and the watermark flag are unchanged. *)
Theorem process_images_changes_only_three_flags w req :
  let w' := (process_images req w).2 in
  (∀ key, key ≠ "operations" → config w' !! key = config w !! key) ∧
  (∀ flag, flag ≠ "resize" → flag ≠ "remove_background" → flag ≠ "enhance" →
     config_lookup (config w') "operations" flag
     = config_lookup (config w) "operations" flag) ∧
  config w' !! "dimensions" = config w !! "dimensions" ∧
  config w' !! "output_format" = config w !! "output_format" ∧
  config w' !! "quality" = config w !! "quality" ∧
  config w' !! "backgrounds" = config w !! "backgrounds" ∧
  config_lookup (config w') "operations" "watermark"
  = config_lookup (config w) "operations" "watermark".
Proof.
  intros w'. subst w'.
  assert (Hkeys : ∀ key, key ≠ "operations" →
            config (process_images req w).2 !! key = config w !! key).
  { intros key Hkey.
    destruct (process_images_config req w)
      as [-> | (ops & fields & _ & _ & ->)]; [done |].
    by rewrite lookup_insert_ne. }
  assert (Hflags : ∀ flag,
            flag ≠ "resize" → flag ≠ "remove_background" → flag ≠ "enhance" →
            config_lookup (config (process_images req w).2) "operations" flag
            = config_lookup (config w) "operations" flag).
  { intros flag H1 H2 H3.
    destruct (process_images_config req w)
      as [-> | (ops & fields & Hops & _ & ->)]; [done |].
    unfold config_lookup. rewrite lookup_insert_eq, Hops.
    unfold updated_operations. by rewrite !lookup_insert_ne. }
  split; [done |]. split; [done |].
  repeat split; try (by apply Hkeys); by apply Hflags.
Qed.

End HandlerProperties.

(** ** The pipeline returns when the libraries do

    In the running application the only exceptions of [process_image]
    are those of the library calls: if the four calls it makes return,
    so does it, and it logs nothing. *)

Section Productive.
Context `{Externals}.
Hypothesis convert_returns : ∀ image, ∃ out, convert image "RGB" = Ok out.
Hypothesis convert_RGBA_returns :
  ∀ image, ∃ out, convert image "RGBA" = Ok out.
Hypothesis thumbnail_returns :
  ∀ image, ∃ out, thumbnail image (VInt 1200) (VInt 1200) = Ok out.
Hypothesis remove_returns : ∀ image, ∃ out, remove image = Ok out.
Hypothesis enhance_returns :
  ∀ k image factor, ∃ out, enhance k image factor = Ok out.

Lemma flags_config_lookup r b e :
  config_lookup (flags_config r b e) "operations" "resize" = Some (VBool r) ∧
  config_lookup (flags_config r b e) "operations" "remove_background"
    = Some (VBool b) ∧
  config_lookup (flags_config r b e) "operations" "enhance" = Some (VBool e) ∧
  config_lookup (flags_config r b e) "dimensions" "width" = Some (VInt 1200) ∧
  config_lookup (flags_config r b e) "dimensions" "height" = Some (VInt 1200).
Proof.
  unfold config_lookup, flags_config. rewrite lookup_insert_eq.
  rewrite lookup_insert_ne by done. repeat split; reflexivity.
Qed.

Lemma normalize_returns image w : ∃ out, normalize image w = (Ok out, w).
Proof.
  unfold normalize. destruct (decide _); [| by eexists].
  destruct (convert_returns image) as [out Hout]. exists out.
  unfold lift. by rewrite Hout.
Qed.

Lemma paste_on_white_returns image :
  mode image = "RGBA" → ∃ out, paste_on_white image = Ok out.
Proof.
  intros Hm. rewrite (paste_on_white_run _ Hm). unfold paste.
  rewrite decide_True by done. by eexists.
Qed.

Lemma resize_contain_returns image :
  ∃ out, resize_contain image [VInt 1200; VInt 1200] = Ok out.
Proof.
  destruct (thumbnail_returns image) as [thumb Hthumb].
  assert (Hshown : ∃ shown,
            (if decide (mode thumb = "RGBA") then Ok thumb
             else convert thumb "RGBA") = Ok shown).
  { destruct (decide _); [by eexists | apply convert_RGBA_returns]. }
  destruct Hshown as [shown Hshown].
  destruct (convert_RGBA_returns
              (paste_at (mkImage "RGBA" (Z.to_nat 1200) (Z.to_nat 1200)
                           (replicate (Z.to_nat 1200 * Z.to_nat 1200)
                              [255; 255; 255; 0]))
                 shown (ceil_half (1200 - Z.of_nat (width thumb)))
                 (ceil_half (1200 - Z.of_nat (height thumb)))))
    as [out Hout].
  exists out. unfold resize_contain, list_index.
  change ([VInt 1200; VInt 1200] !! 0%nat) with (Some (VInt 1200)).
  change ([VInt 1200; VInt 1200] !! 1%nat) with (Some (VInt 1200)).
  cbn [mbind result_bind]. rewrite Hthumb.
  cbn [mbind result_bind as_int]. unfold Image_new_RGBA.
  rewrite decide_False by lia. cbn [mbind result_bind].
  unfold paste_on_canvas. rewrite Hshown. cbn [mbind result_bind].
  exact Hout.
Qed.

Lemma resize_step_returns image w r b e :
  config w = flags_config r b e → ∃ out, resize_step image w = (Ok out, w).
Proof.
  intros Hcfg. destruct (flags_config_lookup r b e) as (Hr & _ & _ & Hw & Hh).
  rewrite <- Hcfg in Hr, Hw, Hh. unfold resize_step.
  rewrite bind_run, (config_get_lookup _ _ _ _ Hr). simpl.
  destruct r; [| by eexists].
  rewrite bind_run, (config_get_lookup _ _ _ _ Hw).
  rewrite bind_run, (config_get_lookup _ _ _ _ Hh).
  destruct (resize_contain_returns image) as [out Hout]. exists out.
  unfold lift. by rewrite Hout.
Qed.

Lemma remove_background_step_returns image w r b e :
  config w = flags_config r b e →
  ∃ out, remove_background_step image w = (Ok out, w).
Proof.
  intros Hcfg. destruct (flags_config_lookup r b e) as (_ & Hb & _).
  rewrite <- Hcfg in Hb. unfold remove_background_step.
  rewrite bind_run, (config_get_lookup _ _ _ _ Hb). simpl.
  destruct b; [| by eexists].
  destruct (remove_returns image) as [cut Hcut].
  rewrite bind_run. unfold lift at 1. rewrite Hcut.
  destruct (decide (mode cut = "RGBA")) as [Hm|]; [| by eexists].
  destruct (paste_on_white_returns cut Hm) as [out Hout]. exists out.
  unfold lift. by rewrite Hout.
Qed.

Lemma _enhance_image_returns image w :
  ∃ out, _enhance_image image w = (Ok out, w).
Proof.
  destruct (normalize_returns image w) as [i0 H0].
  destruct (enhance_returns Contrast i0 1.2%float) as [i1 H1].
  destruct (enhance_returns Brightness i1 1.1%float) as [i2 H2].
  destruct (enhance_returns Sharpness i2 1.1%float) as [i3 H3].
  exists i3. unfold _enhance_image, log_and_reraise, try_except.
  rewrite bind_run, H0, bind_run. unfold lift at 1. rewrite H1.
  rewrite bind_run. unfold lift at 1. rewrite H2. unfold lift. by rewrite H3.
Qed.

Lemma enhance_step_returns image w r b e :
  config w = flags_config r b e → ∃ out, enhance_step image w = (Ok out, w).
Proof.
  intros Hcfg. destruct (flags_config_lookup r b e) as (_ & _ & He & _).
  rewrite <- Hcfg in He. unfold enhance_step.
  rewrite bind_run, (config_get_lookup _ _ _ _ He). simpl.
  destruct e; [apply _enhance_image_returns | by eexists].
Qed.

Lemma pipeline_returns image w :
  reachable w → ∃ out, process_image image w = (Ok out, w).
Proof.
  intros (r & b & e & Hcfg)%reachable_config.
  destruct (normalize_returns image w) as [i0 H0].
  destruct (resize_step_returns i0 w r b e Hcfg) as [i1 H1].
  destruct (remove_background_step_returns i1 w r b e Hcfg) as [i2 H2].
  destruct (enhance_step_returns i2 w r b e Hcfg) as [i3 H3].
  destruct (normalize_returns i3 w) as [out Hout].
  exists out. unfold process_image, log_and_reraise, try_except.
  by rewrite bind_run, H0, bind_run, H1, bind_run, H2, bind_run, H3, Hout.
Qed.

End Productive.

(** ** The configuration loader *)

Section Loader.
Context `{Externals}.

Lemma dict_merge_lookup d o key :
  (o ∪ d : gmap string value) !! key =
  match o !! key with
  | Some v => Some v
  | None => d !! key
  end.
Proof.
  rewrite lookup_union. destruct (o !! key), (d !! key); done.
Qed.

(** C6.  The defaults are 1200 by 1200, JPEG, quality 95, resize and
    enhance on, background removal and watermark off, a white background;
    the loader returns them when no path is given or the path names
    nothing; and when the path names a file that parses to a mapping,
    every key of the file carries the file's value, whole, and every
    other key its default. *)
Theorem load_config_defaults_and_shallow_merge fs :
  (config_lookup default_config "dimensions" "width" = Some (VInt 1200) ∧
   config_lookup default_config "dimensions" "height" = Some (VInt 1200) ∧
   default_config !! "output_format" = Some (VStr "JPEG") ∧
   default_config !! "quality" = Some (VInt 95) ∧
   config_lookup default_config "operations" "resize" = Some (VBool true) ∧
   config_lookup default_config "operations" "enhance" = Some (VBool true) ∧
   config_lookup default_config "operations" "remove_background"
     = Some (VBool false) ∧
   config_lookup default_config "operations" "watermark" = Some (VBool false) ∧
   config_lookup default_config "backgrounds" "default_color"
     = Some (VStr "#FFFFFF") ∧
   getrgb "#FFFFFF" = getrgb "white") ∧
  _load_config fs None = Ok default_config ∧
  (∀ path, fs !! path = None → _load_config fs (Some path) = Ok default_config) ∧
  (∀ path content o,
     path ≠ EmptyString →
     fs !! path = Some (File content) →
     safe_load content = Ok (VDict o) →
     ∃ cfg,
       _load_config fs (Some path) = Ok cfg ∧
       ∀ key, cfg !! key =
              match o !! key with
              | Some v => Some v
              | None => default_config !! key
              end).
Proof.
  split; [repeat split |]. split; [done |]. split.
  - intros path Hnone. unfold _load_config. rewrite Hnone. by destruct path.
  - intros path content o Hpath Hfile Hload. exists (o ∪ default_config).
    split; [| intros key; apply dict_merge_lookup].
    unfold _load_config. destruct path as [|c path]; [done |].
    by rewrite Hfile, Hload.
Qed.

(** C10.  When the path names a file whose text parses to something that
    is not a mapping, the loader raises a [TypeError]: it neither falls
    back to the defaults nor returns a merged configuration. *)
Theorem load_config_rejects_non_mapping fs path content v :
  path ≠ EmptyString →
  fs !! path = Some (File content) →
  safe_load content = Ok v →
  (∀ o, v ≠ VDict o) →
  ∃ msg, _load_config fs (Some path) = Raise (TypeError msg).
Proof.
  intros Hpath Hfile Hload Hv. unfold _load_config.
  destruct path as [|c path]; [done |]. rewrite Hfile, Hload. simpl.
  destruct v; simpl; eauto. by destruct (Hv d).
Qed.

End Loader.

(** ** The model at work on the sample inputs *)

Lemma shrink_width_bound (bw bh iw ih : nat) :
  (0 < bw)%nat → (0 < bh)%nat →
  ((if decide (bw * ih ≤ bh * iw)%nat
    then bw else 1 `max` (iw * bh / ih)) ≤ bw)%nat.
Proof.
  intros Hbw Hbh. destruct (decide _) as [|Hn]; [done |].
  apply Nat.max_lub; [lia |].
  apply Nat.Div0.div_le_upper_bound. nia.
Qed.

Lemma shrink_height_bound (bw bh iw ih : nat) :
  (0 < bw)%nat → (0 < bh)%nat →
  ¬ ((iw ≤ bw)%nat ∧ (ih ≤ bh)%nat) →
  ((if decide (bw * ih ≤ bh * iw)%nat
    then 1 `max` (ih * bw / iw) else bh) ≤ bh)%nat.
Proof.
  intros Hbw Hbh Hbig. destruct (decide _) as [Hle|]; [| done].
  apply Nat.max_lub; [lia |].
  apply Nat.Div0.div_le_upper_bound. nia.
Qed.

Lemma stub_laws : @ExternalsLaws Stub.lib.
Proof.
  split.
  - intros image m out. simpl. unfold Stub.to_mode.
    destruct (decide (mode image = m)) as [<-|]; [by intros [= <-] |].
    repeat case_decide; intros [= <-]; done.
  - intros image m out. simpl. unfold Stub.to_mode.
    repeat case_decide; intros [= <-]; done.
  - intros image. simpl. unfold Stub.to_mode. by rewrite decide_True.
  - intros image w h out. simpl. unfold Stub.shrink.
    destruct w; try discriminate. destruct h; try discriminate.
    repeat case_decide; intros [= <-]; done.
  - intros image w h out. simpl. unfold Stub.shrink.
    destruct (decide _) as [Hfit|Hbig]; [by intros [= <-] |].
    destruct (decide (0 < w ∧ 0 < h)) as [[Hw Hh]|]; [| discriminate].
    intros [= <-]. cbn [width height]. split.
    + pose proof (shrink_width_bound (Z.to_nat w) (Z.to_nat h)
                    (width image) (height image)). lia.
    + pose proof (shrink_height_bound (Z.to_nat w) (Z.to_nat h)
                    (width image) (height image)). lia.
  - intros image w h Hw Hh. simpl. unfold Stub.shrink.
    by rewrite decide_True.
  - intros image out. simpl. unfold Stub.cutout. by intros [= <-].
  - intros k image factor out. simpl. unfold Stub.adjust. by intros [= <-].
Qed.

Lemma reachable_start : @reachable Stub.lib start.
Proof. exact (@reach_start Stub.lib ∅ default_config [] 0%nat eq_refl). Defined.

(** The sample instance never raises in the four calls of the pipeline,
    so with it [process_image] returns in every state of the
    application. *)
Lemma stub_pipeline_returns image w :
  @reachable Stub.lib w → ∃ out, @process_image Stub.lib image w = (Ok out, w).
Proof.
  assert (Hconv : ∀ m, m = "RGB" ∨ m = "RGBA" →
            ∀ i, ∃ out, @convert Stub.lib i m = Ok out).
  { intros m Hm i. simpl. unfold Stub.to_mode.
    destruct (decide (mode i = m)); [by eexists |].
    destruct Hm as [-> | ->]; by eexists. }
  apply (@pipeline_returns Stub.lib).
  - apply Hconv. by left.
  - apply Hconv. by right.
  - intros i.
    change (∃ out, Stub.shrink i (VInt 1200) (VInt 1200) = Ok out).
    unfold Stub.shrink. destruct (decide _); [by eexists |].
    rewrite decide_True by (split; reflexivity). eexists. reflexivity.
  - intros i. eexists. reflexivity.
  - intros k i f. eexists. reflexivity.
Qed.

Lemma process_image_returns_RGB_witness :
  ∃ out w',
    @process_image Stub.lib gray_pixel (mkWorld small_config [] 0) = (Ok out, w') ∧
    mode out = "RGB".
Proof.
  pose proof (@process_image_returns_RGB Stub.lib stub_laws gray_pixel
                (mkWorld small_config [] 0)) as Hmode.
  destruct (@process_image Stub.lib gray_pixel (mkWorld small_config [] 0))
    as [[out|e] w'] eqn:Hrun.
  - by exists out, w'.
  - vm_compute in Hrun. discriminate.
Defined.

Lemma process_image_resizes_to_configured_witness :
  ∃ out w',
    @process_image Stub.lib rgb_pixel (mkWorld small_config [] 0) = (Ok out, w') ∧
    Z.of_nat (width out) = 2 ∧ Z.of_nat (height out) = 1 ∧
    pixels out = [[255; 255; 255]; [10; 20; 30]].
Proof.
  pose proof (@process_image_resizes_to_configured Stub.lib stub_laws rgb_pixel
                (mkWorld small_config [] 0) (VBool true) 2 1
                eq_refl eq_refl eq_refl eq_refl) as Hsize.
  destruct (@process_image Stub.lib rgb_pixel (mkWorld small_config [] 0))
    as [[out|e] w'] eqn:Hrun.
  - destruct Hsize as (Hw & Hh & _). exists out, w'.
    split; [reflexivity |]. split; [exact Hw |]. split; [exact Hh |].
    vm_compute in Hrun. by injection Hrun as <- _.
  - vm_compute in Hrun. discriminate.
Defined.

Lemma normalize_idempotent_on_RGB_witness :
  mode rgb_pixel = "RGB" ∧
  @normalize Stub.lib rgb_pixel start = (Ok rgb_pixel, start) ∧
  (@normalize Stub.lib rgb_pixel ≫= @normalize Stub.lib) start
  = (Ok rgb_pixel, start).
Proof.
  split; [reflexivity |].
  apply (@normalize_idempotent_on_RGB Stub.lib rgb_pixel start). reflexivity.
Defined.

Lemma remove_background_composites_on_white_witness :
  ∃ res,
    @remove_background_step Stub.lib rgb_pixel (mkWorld black_fill_config [] 0)
    = (Ok res, mkWorld black_fill_config [] 0) ∧
    mode res = "RGB" ∧ size res = (1%nat, 1%nat).
Proof.
  destruct (@remove_background_composites_on_white Stub.lib rgb_pixel
              (mkWorld black_fill_config [] 0) (VBool true)
              (mkImage "RGBA" 1 1 [[10; 20; 30; 255]])
              eq_refl eq_refl eq_refl eq_refl)
    as (res & Hrun & _ & Hmode & Hsize & _).
  exists res. split; [exact Hrun |]. split; [exact Hmode | exact Hsize].
Defined.

(** C2, as the specification has it, fails: with black configured as the
    fill color, a transparent pixel comes out white, where compositing on
    the configured color gives black. *)
Lemma composite_ignores_configured_color :
  mode clear_pixel = "RGBA" ∧
  config_lookup black_fill_config "backgrounds" "default_color"
    = Some (VStr "#000000") ∧
  paste_on_white clear_pixel = Ok (mkImage "RGB" 1 1 [[255; 255; 255]]) ∧
  paste_on_configured_color black_fill_config clear_pixel
    = Ok (mkImage "RGB" 1 1 [[0; 0; 0]]) ∧
  paste_on_white clear_pixel
    ≠ paste_on_configured_color black_fill_config clear_pixel.
Proof. repeat split; try reflexivity. vm_compute. discriminate. Qed.

(** With the default configuration the two readings agree, the default
    fill color being white. *)
Lemma default_color_is_white image :
  paste_on_configured_color default_config image = paste_on_white image.
Proof. reflexivity. Qed.

Lemma batch_skips_failed_uploads_witness :
  ∃ resp w',
    @process_images Stub.lib three_uploads start = (Ok resp, w') ∧
    status resp = 200%nat ∧
    (∃ a c, payload resp = Attachment [("processed_20240101_120000_a.png", a);
                                       ("processed_20240101_120000_c.png", c)]) ∧
    "Error processing b.png: cannot identify image file" ∈ logged w'.
Proof.
  destruct (@batch_skips_failed_uploads Stub.lib start three_uploads
              (list_to_map [("enhance", "on")])
              [mkFile (Some "a.png") good_upload;
               mkFile (Some "b.png") corrupt_upload;
               mkFile (Some "c.png") good_upload]
              reachable_start eq_refl eq_refl)
    as (resp & w' & Hrun & Hstatus & Hpayload & Hlog & _).
  exists resp, w'. split; [exact Hrun |]. split; [exact Hstatus |]. split.
  - vm_compute in Hpayload. eexists _, _. exact Hpayload.
  - apply (Hlog "b.png" (LibraryError "cannot identify image file")).
    vm_compute. apply elem_of_cons. right. apply elem_of_cons. by left.
Defined.

(** C3, as the specification has it, fails twice over.  An upload whose
    name is too long for the header of an archive entry is opened,
    processed and encoded without an exception and still has no entry:
    writing it raises inside the same [try], so it is logged and skipped.
    And a batch whose form cannot be read is answered 500. *)
Lemma batch_claim_counterexample :
  (∃ data resp w',
     @outcome Stub.lib (@update_operations long_name_upload start).2
       (mkFile (Some long_name) good_upload) = Ok data ∧
     @process_images Stub.lib long_name_upload start = (Ok resp, w') ∧
     status resp = 200%nat ∧
     payload resp = Attachment [] ∧
     ("Error processing " +:+ long_name +:+
        ": 'H' format requires 0 <= number <= 65535") ∈ logged w') ∧
  (∃ resp w',
     files unreadable_batch !! "images"
       = Some [mkFile (Some "a.png") good_upload] ∧
     @process_images Stub.lib unreadable_batch start = (Ok resp, w') ∧
     status resp = 500%nat).
Proof.
  split.
  - assert (Hout : ∃ data,
              @outcome Stub.lib (@update_operations long_name_upload start).2
                (mkFile (Some long_name) good_upload) = Ok data)
      by (eexists; vm_compute; reflexivity).
    destruct Hout as [data Hout].
    assert (Hlong : 65535 < Z.of_nat (String.length
                      (zip_name (entry_name "20240101_120000" long_name))))
      by (vm_compute; reflexivity).
    destruct (default_config_operations) as [ops Hops].
    destruct (@process_images_batch Stub.lib long_name_upload start ops ∅
                [mkFile (Some long_name) good_upload] Hops eq_refl eq_refl)
      as (l & Hrun & Hlog).
    rewrite (update_operations_run long_name_upload start ops ∅
               Hops eq_refl) in Hout.
    cbn [snd] in Hout.
    assert (Hfate :
      @fate_of Stub.lib
        (mkWorld (<["operations" := VDict (updated_operations ∅ ops)]>
                    (config start)) (logged start) (clock start))
        (clock start) (mkFile (Some long_name) good_upload)
      = Failed long_name
          (LibraryError "'H' format requires 0 <= number <= 65535")).
    { unfold fate_of.
      change (named (mkFile (Some long_name) good_upload))
        with (Some long_name).
      rewrite Hout. unfold zip_entry.
      change (@strftime_now Stub.lib (clock start)) with "20240101_120000".
      by rewrite decide_True by exact Hlong. }
    cbn [fates] in Hrun, Hlog. rewrite Hfate in Hrun, Hlog.
    eexists data, _, _.
    split.
    { by rewrite (update_operations_run long_name_upload start ops ∅
                    Hops eq_refl). }
    split; [exact Hrun |].
    split; [reflexivity |]. split; [reflexivity |].
    cbn [logged start app]. apply Hlog. unfold complaints.
    cbn [omap list_omap]. apply elem_of_cons. by left.
  - eexists _, _. split; [reflexivity |].
    split; [vm_compute; reflexivity | reflexivity].
Qed.

Lemma missing_images_is_400_witness :
  ∃ resp w',
    @process_images Stub.lib bare_request start = (Ok resp, w') ∧
    status resp = 400%nat ∧
    payload resp = Text "No files uploaded" ∧
    mimetype resp = Some "text/html" ∧
    logged w' = logged start ∧
    clock w' = clock start.
Proof.
  exact (@missing_images_is_400 Stub.lib start bare_request ∅
           reachable_start eq_refl eq_refl).
Defined.

(** C5, as the specification has it, fails: a request without the
    [images] field whose form cannot be read is answered 500, with a line
    in the log; and the text of the 400 answer goes out as text/html. *)
Lemma missing_images_claim_counterexample :
  files unreadable_request !! "images" = None ∧
  @process_images Stub.lib unreadable_request start
  = (Ok (mkResponse (Text (str too_large)) 500 (Some "text/html") None),
     mkWorld default_config ["Processing error: " +:+ str too_large] 0) ∧
  mimetype (text_response "No files uploaded" 400) = Some "text/html".
Proof. split; [reflexivity |]. split; [vm_compute |]; reflexivity. Qed.

(** The default has the resize flag on; the bare request, answered 400,
    leaves it off. *)
Lemma missing_images_still_sets_flags_witness :
  config_lookup (config start) "operations" "resize" = Some (VBool true) ∧
  ∃ resp w',
    @process_images Stub.lib bare_request start = (Ok resp, w') ∧
    status resp = 400%nat ∧
    config_lookup (config w') "operations" "resize" = Some (VBool false).
Proof.
  split; [reflexivity |].
  destruct (@missing_images_still_sets_flags Stub.lib start bare_request ∅
              reachable_start eq_refl)
    as (resp & w' & Hrun & Hstatus & Hresize & _).
  exists resp, w'. split; [exact Hrun |]. split; [by apply Hstatus |].
  exact Hresize.
Defined.

(** C8, as the specification has it, fails: a request whose form cannot
    be read is handled without any update of the flags; the
    configuration is the one the handler found. *)
Lemma flags_claim_counterexample :
  ∃ resp w',
    @process_images Stub.lib unreadable_request start = (Ok resp, w') ∧
    status resp = 500%nat ∧
    config w' = config start ∧
    config_lookup (config w') "operations" "resize" = Some (VBool true).
Proof.
  eexists _, _. split; [vm_compute; reflexivity |].
  split; [reflexivity |]. split; reflexivity.
Qed.

Lemma process_images_changes_only_three_flags_witness :
  config (@process_images Stub.lib three_uploads start).2 !! "quality"
    = Some (VInt 95) ∧
  config_lookup (config (@process_images Stub.lib three_uploads start).2)
    "operations" "watermark" = Some (VBool false).
Proof.
  destruct (@process_images_changes_only_three_flags Stub.lib start three_uploads)
    as (_ & _ & _ & _ & Hquality & _ & Hwatermark).
  split; [rewrite Hquality | rewrite Hwatermark]; reflexivity.
Defined.

Lemma load_config_defaults_and_shallow_merge_witness :
  ∃ cfg,
    @_load_config Stub.lib sample_files (Some "config.yaml") = Ok cfg ∧
    config_lookup cfg "dimensions" "width" = Some (VInt 800) ∧
    config_lookup cfg "dimensions" "height" = None ∧
    cfg !! "quality" = Some (VInt 95).
Proof.
  destruct (@load_config_defaults_and_shallow_merge Stub.lib sample_files)
    as (_ & _ & _ & Hmerge).
  destruct (Hmerge "config.yaml" "dimensions: {width: 800}"
              (list_to_map [("dimensions",
                             VDict (list_to_map [("width", VInt 800)]))])
              ltac:(discriminate) eq_refl eq_refl)
    as (cfg & Hrun & Hkeys).
  exists cfg. split; [exact Hrun |].
  unfold config_lookup. rewrite !Hkeys. repeat split; reflexivity.
Defined.

Lemma load_config_rejects_non_mapping_witness :
  ∃ msg, @_load_config Stub.lib sample_files (Some "empty.yaml")
         = Raise (TypeError msg).
Proof.
  apply (@load_config_rejects_non_mapping Stub.lib sample_files "empty.yaml"
           EmptyString VNone);
    [discriminate | reflexivity | reflexivity | discriminate].
Defined.

(** * Further properties of the program *)

(** ** Silent computations *)

Lemma silent_ret {A} (a : A) : silent (mret a).
Proof. by intros w x w' [= _ ->]. Qed.

Lemma silent_lift {A} (r : result A) : silent (lift r).
Proof. by intros w x w' [_ ->]%lift_Ok. Qed.

Lemma silent_get_config : silent get_config.
Proof. by intros w x w' [= _ ->]. Qed.

Lemma silent_bind {A B} (m : M A) (k : A → M B) :
  silent m → (∀ a, silent (k a)) → silent (m ≫= k).
Proof.
  intros Hm Hk w b w' (a & w1 & H1 & H2)%bind_Ok.
  apply Hm in H1 as ->. by apply Hk in H2.
Qed.

Lemma silent_log_and_reraise {A} prefix (body : M A) :
  silent body → silent (log_and_reraise prefix body).
Proof. intros Hb w a w' Hrun%log_and_reraise_Ok. by apply Hb in Hrun. Qed.

Lemma silent_config_get section key : silent (config_get section key).
Proof. by intros w v w' [_ ->]%config_get_Ok. Qed.

Ltac silent_step :=
  lazymatch goal with
  | |- silent (_ ≫= _) => apply silent_bind; [| intros ?]
  | |- silent (if ?c then _ else _) => destruct c
  | |- silent (log_and_reraise _ _) => apply silent_log_and_reraise
  | |- silent (mret _) => apply silent_ret
  | |- silent (lift _) => apply silent_lift
  | |- silent get_config => apply silent_get_config
  | |- silent (config_get _ _) => apply silent_config_get
  end.

Section SilentProcessor.
Context `{Externals}.

Lemma silent_normalize image : silent (normalize image).
Proof. unfold normalize. repeat silent_step. Qed.

Lemma silent_resize_step image : silent (resize_step image).
Proof. unfold resize_step. repeat silent_step. Qed.

Lemma silent_remove_background_step image :
  silent (remove_background_step image).
Proof. unfold remove_background_step. repeat silent_step. Qed.

Lemma silent__enhance_image image : silent (_enhance_image image).
Proof.
  apply silent_log_and_reraise.
  apply silent_bind; [apply silent_normalize |]. intros ?. repeat silent_step.
Qed.

Lemma silent_enhance_step image : silent (enhance_step image).
Proof.
  unfold enhance_step. apply silent_bind; [apply silent_config_get |].
  intros flag. destruct (truthy flag);
    [apply silent__enhance_image | apply silent_ret].
Qed.

Lemma silent_process_image image : silent (process_image image).
Proof.
  apply silent_log_and_reraise.
  apply silent_bind; [apply silent_normalize |]. intros ?.
  apply silent_bind; [apply silent_resize_step |]. intros ?.
  apply silent_bind; [apply silent_remove_background_step |]. intros ?.
  apply silent_bind; [apply silent_enhance_step |]. intros ?.
  apply silent_normalize.
Qed.

Lemma silent_save_image image output_format :
  silent (save_image image output_format).
Proof.
  apply silent_log_and_reraise.
  apply silent_bind; [apply silent_lift |]. intros up.
  apply silent_bind;
    [destruct (decide _); [apply silent_normalize | apply silent_ret] |].
  intros ?. repeat silent_step.
Qed.

Lemma silent_encode_upload file : silent (encode_upload file).
Proof.
  unfold encode_upload.
  apply silent_bind; [apply silent_lift |]. intros img.
  apply silent_bind; [apply silent_process_image |]. intros p.
  apply silent_bind; [apply silent_get_config |]. intros cfg.
  apply silent_bind; [apply silent_lift |]. intros fmt.
  apply silent_save_image.
Qed.

Lemma process_image_Raise_state image w e w' :
  process_image image w = (Raise e, w') →
  ∃ l, w' = add_log w (l ++ ["Error processing image: " +:+ str e]).
Proof.
  unfold process_image, log_and_reraise, try_except.
  match goal with |- context [match ?body w with _ => _ end] =>
    assert (Hq : quiet body) by
      (apply quiet_bind; [apply quiet_normalize |]; intros ?;
       apply quiet_bind; [apply quiet_resize_step |]; intros ?;
       apply quiet_bind; [apply quiet_remove_background_step |]; intros ?;
       apply quiet_bind; [apply quiet_enhance_step |]; intros ?;
       apply quiet_normalize);
    destruct (Hq w w eq_refl) as (r & l & -> & _)
  end.
  destruct r as [a|e']; [discriminate |].
  rewrite bind_run. unfold logging_error, lift. intros [= <- <-].
  exists l. by rewrite add_log_app.
Qed.

(** X1.  [process_image] touches nothing but the log, and the log only
    when it raises: a run that returns leaves the state as it was; a run
    that raises appends lines to the log, the last of them its own, and
    changes neither the configuration nor the clock. *)
Theorem process_image_logs_only_on_failure image w :
  match process_image image w with
  | (Ok _, w') => w' = w
  | (Raise e, w') =>
      ∃ l, w' = add_log w (l ++ ["Error processing image: " +:+ str e])
  end.
Proof.
  destruct (process_image image w) as [[out|e] w'] eqn:Hrun.
  - by apply silent_process_image in Hrun.
  - by apply process_image_Raise_state in Hrun.
Qed.

End SilentProcessor.

(** ** Steps that are switched off *)

Section StepsOff.
Context `{Externals}.

Lemma normalize_RGB image w :
  mode image = "RGB" → normalize image w = (Ok image, w).
Proof. intros Hm. unfold normalize. by rewrite decide_False by (by intros []). Qed.

Lemma resize_step_off image w flag :
  config_lookup (config w) "operations" "resize" = Some flag →
  truthy flag = false →
  resize_step image w = (Ok image, w).
Proof.
  intros Hflag Hf. unfold resize_step.
  by rewrite bind_run, (config_get_lookup _ _ _ _ Hflag), Hf.
Qed.

Lemma remove_background_step_off image w flag :
  config_lookup (config w) "operations" "remove_background" = Some flag →
  truthy flag = false →
  remove_background_step image w = (Ok image, w).
Proof.
  intros Hflag Hf. unfold remove_background_step.
  by rewrite bind_run, (config_get_lookup _ _ _ _ Hflag), Hf.
Qed.

Lemma enhance_step_off image w flag :
  config_lookup (config w) "operations" "enhance" = Some flag →
  truthy flag = false →
  enhance_step image w = (Ok image, w).
Proof.
  intros Hflag Hf. unfold enhance_step.
  by rewrite bind_run, (config_get_lookup _ _ _ _ Hflag), Hf.
Qed.

Lemma process_image_Ok_mode `{!ExternalsLaws} image w out w' :
  process_image image w = (Ok out, w') → mode out = "RGB".
Proof.
  intros Hrun%log_and_reraise_Ok. do 4 invert_bind Hrun.
  by apply normalize_mode in Hrun.
Qed.

(** X2.  With the three flags off the pipeline is the conversion to RGB
    and nothing else: an RGB image comes back as it went in, any other
    image comes back as [convert] made it, and the state is untouched. *)
Theorem process_image_all_steps_off `{!ExternalsLaws} image w r b e :
  config_lookup (config w) "operations" "resize" = Some r →
  config_lookup (config w) "operations" "remove_background" = Some b →
  config_lookup (config w) "operations" "enhance" = Some e →
  truthy r = false → truthy b = false → truthy e = false →
  (mode image = "RGB" → process_image image w = (Ok image, w)) ∧
  (∀ out, mode image ≠ "RGB" → convert image "RGB" = Ok out →
     process_image image w = (Ok out, w)).
Proof.
  intros Hr Hb He Hfr Hfb Hfe.
  assert (Hrest : ∀ img, mode img = "RGB" →
    (resize_step img ≫= fun i1 =>
       remove_background_step i1 ≫= fun i2 =>
         enhance_step i2 ≫= fun i3 => normalize i3) w = (Ok img, w)).
  { intros img Hm.
    rewrite bind_run, (resize_step_off _ _ _ Hr Hfr).
    rewrite bind_run, (remove_background_step_off _ _ _ Hb Hfb).
    rewrite bind_run, (enhance_step_off _ _ _ He Hfe).
    by apply normalize_RGB. }
  split.
  - intros Hm. unfold process_image, log_and_reraise, try_except.
    by rewrite bind_run, (normalize_RGB _ _ Hm), (Hrest _ Hm).
  - intros out Hm Hconv. unfold process_image, log_and_reraise, try_except.
    rewrite bind_run. unfold normalize at 1. rewrite decide_True by done.
    unfold lift at 1. rewrite Hconv.
    by rewrite (Hrest out (convert_mode _ _ _ Hconv)).
Qed.

(** X4.  A configuration whose [dimensions] entry has a width and no
    height (what the shallow merge leaves of a file that sets the width
    alone) makes the resize step fail: on an RGB image [process_image]
    raises [KeyError('height')], logs it once, and [resize_contain] is
    never reached. *)
Theorem resize_without_height_raises image w flag d v :
  mode image = "RGB" →
  config_lookup (config w) "operations" "resize" = Some flag →
  truthy flag = true →
  config w !! "dimensions" = Some (VDict d) →
  d !! "width" = Some v →
  d !! "height" = None →
  process_image image w =
  (Raise (KeyError "height"), add_log w ["Error processing image: 'height'"]).
Proof.
  intros Hm Hflag Ht Hdims Hw Hh.
  assert (Hwidth : config_lookup (config w) "dimensions" "width" = Some v).
  { unfold config_lookup. by rewrite Hdims. }
  assert (Hheight : config_get "dimensions" "height" w
                    = (Raise (KeyError "height"), w)).
  { rewrite config_get_run. unfold getitem. rewrite Hdims. simpl.
    unfold getitem. by rewrite Hh. }
  unfold process_image, log_and_reraise, try_except.
  rewrite bind_run, (normalize_RGB _ _ Hm).
  rewrite bind_run. unfold resize_step at 1.
  rewrite bind_run, (config_get_lookup _ _ _ _ Hflag), Ht.
  rewrite bind_run, (config_get_lookup _ _ _ _ Hwidth).
  rewrite bind_run, Hheight. reflexivity.
Qed.

(** X5.  What [save_image] hands to the encoder: the state is left alone,
    the quality is the configured one, and the image is an RGB image of
    the same size when the format reads JPEG in any letter case, the image
    it was given for every other format. *)
Theorem save_image_encodes_RGB_for_JPEG `{!ExternalsLaws} image s w data w' :
  save_image image (VStr s) w = (Ok data, w') →
  w' = w ∧
  ∃ quality,
    config w !! "quality" = Some quality ∧
    if decide (map_string upper_ascii s = "JPEG")
    then ∃ rgb, mode rgb = "RGB" ∧ size rgb = size image ∧
                save rgb (VStr s) quality = Ok data
    else save image (VStr s) quality = Ok data.
Proof.
  intros Hrun. pose proof (silent_save_image _ _ _ _ _ Hrun) as ->.
  split; [done |]. apply log_and_reraise_Ok in Hrun.
  apply bind_Ok in Hrun as (up & w1 & [Hup ->]%lift_Ok & Hrun).
  injection Hup as <-.
  apply bind_Ok in Hrun as (rgb & w2 & Hnorm & Hrun).
  apply bind_Ok in Hrun as (cfg & w3 & Hcfg & Hrun).
  injection Hcfg as <- <-.
  apply bind_Ok in Hrun as (quality & w4 & [Hq ->]%lift_Ok & Hrun).
  apply lift_Ok in Hrun as [Hsave _].
  exists quality. split.
  - unfold getitem in Hq. destruct (config w2 !! "quality") eqn:Hl;
      [| discriminate].
    injection Hq as ->.
    destruct (decide _); [apply silent_normalize in Hnorm |
                          apply ret_Ok in Hnorm as [_ ->]]; by subst.
  - destruct (decide (map_string upper_ascii s = "JPEG")).
    + exists rgb. split; [by apply normalize_mode in Hnorm |].
      split; [by apply normalize_size in Hnorm | done].
    + by apply ret_Ok in Hnorm as [-> _].
Qed.

(** X6.  The bytes the handler archives for an upload are the encoding,
    in the configured format and at the configured quality, of the RGB
    image that [process_image] returned for the decoded upload; no step
    on the way changed the state. *)
Theorem encoded_upload_is_saved_RGB `{!ExternalsLaws} file w data :
  outcome w file = Ok data →
  ∃ img out output_format quality,
    Image_open (stream file) = Ok img ∧
    process_image img w = (Ok out, w) ∧
    mode out = "RGB" ∧
    config w !! "output_format" = Some output_format ∧
    config w !! "quality" = Some quality ∧
    save out output_format quality = Ok data.
Proof.
  unfold outcome. destruct (encode_upload file w) as [r w'] eqn:Hrun.
  simpl. intros ->. unfold encode_upload in Hrun.
  apply bind_Ok in Hrun as (img & w1 & [Hopen ->]%lift_Ok & Hrun).
  apply bind_Ok in Hrun as (out & w2 & Hproc & Hrun).
  pose proof (silent_process_image _ _ _ _ Hproc) as ->.
  pose proof (process_image_Ok_mode _ _ _ _ Hproc) as Hmode.
  apply bind_Ok in Hrun as (cfg & w3 & Hcfg & Hrun).
  injection Hcfg as <- <-.
  apply bind_Ok in Hrun as (fmt & w4 & [Hfmt ->]%lift_Ok & Hrun).
  unfold getitem in Hfmt.
  destruct (config w !! "output_format") as [fmt'|] eqn:Hlf; [| discriminate].
  injection Hfmt as ->.
  apply log_and_reraise_Ok in Hrun.
  apply bind_Ok in Hrun as (up & w5 & [Hup ->]%lift_Ok & Hrun).
  apply bind_Ok in Hrun as (rgb & w6 & Hnorm & Hrun).
  assert (rgb = out ∧ w6 = w) as [-> ->].
  { destruct (decide _).
    - rewrite (normalize_RGB _ _ Hmode) in Hnorm. by injection Hnorm.
    - by apply ret_Ok in Hnorm. }
  apply bind_Ok in Hrun as (cfg & w7 & Hcfg & Hrun).
  injection Hcfg as <- <-.
  apply bind_Ok in Hrun as (quality & w8 & [Hq ->]%lift_Ok & Hrun).
  apply lift_Ok in Hrun as [Hsave _].
  unfold getitem in Hq.
  destruct (config w !! "quality") as [q|] eqn:Hlq; [| discriminate].
  injection Hq as ->.
  by exists img, out, fmt, quality.
Qed.

End StepsOff.

(** X3.  While the background flag is off the segmentation is never
    called: putting any other function in its place changes nothing in
    what [process_image] returns, raises or logs. *)
Theorem disabled_background_removal_ignores_rembg
    (E : Externals) (f : Image → result Image) image w flag :
  config_lookup (config w) "operations" "remove_background" = Some flag →
  truthy flag = false →
  @process_image (with_remove E f) image w = @process_image E image w.
Proof.
  intros Hflag Hf. unfold process_image, log_and_reraise, try_except.
  rewrite !bind_run.
  change (@normalize (with_remove E f)) with (@normalize E).
  destruct (@normalize E image w) as [[i0|e0] w0] eqn:H0; [| done].
  pose proof (@silent_normalize E _ _ _ _ H0) as ->.
  rewrite !bind_run.
  change (@resize_step (with_remove E f)) with (@resize_step E).
  destruct (@resize_step E i0 w) as [[i1|e1] w1] eqn:H1; [| done].
  pose proof (@silent_resize_step E _ _ _ _ H1) as ->.
  rewrite !bind_run.
  rewrite (@remove_background_step_off (with_remove E f) _ _ _ Hflag Hf).
  rewrite (@remove_background_step_off E _ _ _ Hflag Hf).
  reflexivity.
Qed.

(** ** More on the handler *)

Section HandlerMore.
Context `{Externals}.

(** X8.  The handler never lets an exception out, and its status is
    decided by three facts alone: 500 when the [operations] entry of the
    configuration is not a dictionary or the form of the request cannot
    be read, otherwise 400 when the request has no [images] field and 200
    when it has one, whatever happens to the uploads. *)
Theorem process_images_status w req :
  ∃ resp w',
    process_images req w = (Ok resp, w') ∧
    ((status resp = 500%nat ∧
      ((∀ ops, config w !! "operations" ≠ Some (VDict ops)) ∨
       ∃ e, form req = Raise e)) ∨
     (status resp = 400%nat ∧
      (∃ ops, config w !! "operations" = Some (VDict ops)) ∧
      (∃ fields, form req = Ok fields) ∧
      files req !! "images" = None) ∨
     (status resp = 200%nat ∧
      (∃ ops, config w !! "operations" = Some (VDict ops)) ∧
      (∃ fields, form req = Ok fields) ∧
      is_Some (files req !! "images"))).
Proof.
  destruct (config w !! "operations") as [v|] eqn:Hops.
  2: { destruct (update_operations_Raise req w) as [e He];
         [by rewrite Hops |].
       rewrite (process_images_raise _ _ _ He).
       eexists _, _. split; [done |]. left. split; [done |]. by left. }
  assert (Hdict : (∃ ops, v = VDict ops) ∨ ∀ ops, v ≠ VDict ops)
    by (destruct v; eauto).
  destruct Hdict as [[ops ->] | Hv].
  - destruct (form req) as [fields|e] eqn:Hform.
    2: { rewrite (process_images_raise _ _ _
                    (update_operations_unreadable _ _ _ _ Hops Hform)).
         eexists _, _. split; [done |]. left. split; [done |]. right. eauto. }
    destruct (files req !! "images") as [fl|] eqn:Hfiles.
    + destruct (process_images_batch req w ops fields fl Hops Hform Hfiles)
        as (l & -> & _).
      eexists _, _. split; [done |]. right. right. eauto 10.
    + rewrite (process_images_no_images req w ops fields Hops Hform Hfiles).
      eexists _, _. split; [done |]. right. left. eauto 10.
  - destruct (update_operations_Raise req w) as [e He].
    { rewrite Hops. intros ops [= ->]. by destruct (Hv ops). }
    rewrite (process_images_raise _ _ _ He).
    eexists _, _. split; [done |]. left. split; [done |]. left.
    intros ops [= ->]. by destruct (Hv ops).
Qed.

(** X9.  When the [operations] entry is missing or is not a dictionary the
    update of the flags raises, and every request, with or without
    uploads, is answered 500 with the text of the exception; the text is
    logged once, no upload is handled, and the configuration and the clock
    stay as they were. *)
Theorem process_images_500 w req :
  (∀ ops, config w !! "operations" ≠ Some (VDict ops)) →
  ∃ e,
    process_images req w =
    (Ok (text_response (str e) 500),
     add_log w ["Processing error: " +:+ str e]) ∧
    (config w !! "operations" = None → e = KeyError "operations").
Proof.
  intros Hops. destruct (update_operations_Raise req w Hops) as [e He].
  exists e. split; [by apply process_images_raise |].
  intros Hnone. revert He. unfold update_operations. rewrite Hnone.
  by intros [= <-].
Qed.

Lemma process_file_unnamed zf file w :
  named file = None → process_file zf file w = (Ok zf, w).
Proof. intros Hn. unfold process_file. by rewrite Hn. Qed.

Lemma process_files_filter fl : ∀ zf w,
  process_files fl zf w =
  process_files (filter (fun file => is_Some (named file)) fl) zf w.
Proof.
  induction fl as [|file rest IH]; intros zf w; [done |].
  destruct (named file) as [name|] eqn:Hn.
  - rewrite filter_cons_True by (by rewrite Hn). simpl. rewrite !bind_run.
    destruct (process_file zf file w) as [[zf'|e] w']; [apply IH | done].
  - rewrite filter_cons_False by (rewrite Hn; by intros [? ?]).
    simpl. rewrite bind_run, (process_file_unnamed _ _ _ Hn). apply IH.
Qed.

(** X10.  Uploads without a name (no filename, or an empty one) count for
    nothing next to a named one: when the [images] field holds at least
    one named upload, taking the unnamed ones out of it changes neither
    the response nor the state the handler leaves. *)
Theorem unnamed_uploads_are_ignored w req fl :
  files req !! "images" = Some fl →
  filter (fun file => is_Some (named file)) fl ≠ [] →
  process_images req w = process_images (without_unnamed req fl) w.
Proof.
  intros Hfiles Hkept. unfold process_images, try_except. rewrite !bind_run.
  change (update_operations (without_unnamed req fl))
    with (update_operations req).
  destruct (update_operations req w) as [[[]|e] w1]; [| done].
  rewrite Hfiles. unfold without_unnamed. cbn [files].
  rewrite !bind_run, (process_files_filter fl).
  destruct (filter (fun file => is_Some (named file)) fl) as [|f kept];
    [done |].
  by rewrite lookup_insert_eq, !bind_run.
Qed.

Lemma process_files_unnamed fl : ∀ zf w,
  (∀ file, file ∈ fl → named file = None) →
  process_files fl zf w = (Ok zf, w).
Proof.
  induction fl as [|file rest IH]; intros zf w Hall; [done |].
  simpl. rewrite bind_run, process_file_unnamed.
  - apply IH. intros f Hf. apply Hall. by apply elem_of_cons; right.
  - apply Hall. by apply elem_of_cons; left.
Qed.

(** X11.  In the running application a request whose form can be read
    and whose [images] field holds no named upload (the nameless part a
    browser sends when no file was chosen) is still answered 200, with
    an empty archive named after the one reading of the clock; nothing
    is logged. *)
Theorem no_named_upload_gives_empty_archive w req fields fl :
  reachable w →
  form req = Ok fields →
  files req !! "images" = Some fl →
  (∀ file, file ∈ fl → named file = None) →
  ∃ w',
    process_images req w =
    (Ok (send_file [] "application/zip"
           ("processed_images_" +:+ strftime_now (clock w) +:+ ".zip")), w') ∧
    logged w' = logged w ∧
    clock w' = S (clock w).
Proof.
  intros [ops Hops]%reachable_operations Hform Hfiles Hall.
  unfold process_images, try_except.
  rewrite bind_run, (update_operations_run _ _ _ _ Hops Hform), Hfiles.
  rewrite bind_run, (process_files_unnamed fl _ _ Hall).
  eexists. split; [reflexivity |]. done.
Qed.

Lemma process_images_config_dict req w ops fields :
  config w !! "operations" = Some (VDict ops) →
  form req = Ok fields →
  config (process_images req w).2 =
  <["operations" := VDict (updated_operations fields ops)]> (config w).
Proof.
  intros Hops Hform. destruct (files req !! "images") as [fl|] eqn:Hfiles.
  - by destruct (process_images_batch req w ops fields fl Hops Hform Hfiles)
      as (l & -> & _).
  - by rewrite (process_images_no_images req w ops fields Hops Hform Hfiles).
Qed.

(** X12.  In the running application the configuration that a request
    whose form can be read leaves behind is the default one with the
    three flags set from that request's form, whatever the earlier
    requests were: the state of the flags before the request, the
    defaults included, plays no part. *)
Theorem flags_follow_the_form w req fields :
  reachable w →
  form req = Ok fields →
  config (process_images req w).2 =
  flags_config (in_form fields "resize") (in_form fields "remove_background")
    (in_form fields "enhance").
Proof.
  intros (r & b & e & Hcfg)%reachable_config Hform.
  assert (Hops : config w !! "operations" = Some (VDict (flags r b e))).
  { rewrite Hcfg. unfold flags_config. apply lookup_insert_eq. }
  rewrite (process_images_config_dict _ _ _ _ Hops Hform), Hcfg.
  unfold flags_config. by rewrite insert_insert_eq, updated_operations_flags.
Qed.

(** X13.  In the running application what a request gets back does not
    depend on the requests handled before it: from any two states in
    which the clock stands at the same reading, the same request is
    answered with the same response, status, text, archive entries and
    download name alike. *)
Theorem response_independent_of_history w w' req :
  reachable w →
  reachable w' →
  clock w = clock w' →
  (process_images req w).1 = (process_images req w').1.
Proof.
  intros (r & b & e & Hcfg)%reachable_config
         (r' & b' & e' & Hcfg')%reachable_config Hclock.
  assert (Hops : config w !! "operations" = Some (VDict (flags r b e))).
  { rewrite Hcfg. unfold flags_config. apply lookup_insert_eq. }
  assert (Hops' : config w' !! "operations" = Some (VDict (flags r' b' e'))).
  { rewrite Hcfg'. unfold flags_config. apply lookup_insert_eq. }
  destruct (form req) as [fields|ex] eqn:Hform.
  2: { by rewrite (process_images_raise _ _ _
                     (update_operations_unreadable _ _ _ _ Hops Hform)),
                  (process_images_raise _ _ _
                     (update_operations_unreadable _ _ _ _ Hops' Hform)). }
  destruct (files req !! "images") as [fl|] eqn:Hfiles.
  - destruct (process_images_batch req w _ fields fl Hops Hform Hfiles)
      as (l & -> & _).
    destruct (process_images_batch req w' _ fields fl Hops' Hform Hfiles)
      as (l' & -> & _).
    cbn [fst]. rewrite Hclock.
    set (w1 := mkWorld _ (logged w) _). set (w1' := mkWorld _ (logged w') _).
    assert (Hc : config w1 = config w1').
    { subst w1 w1'. cbn [config]. rewrite Hcfg, Hcfg'. unfold flags_config.
      by rewrite !insert_insert_eq, !updated_operations_flags. }
    by rewrite (fates_config w1 w1' fl Hc), (readings_config w1 w1' fl Hc).
  - by rewrite (process_images_no_images req w _ fields Hops Hform Hfiles),
               (process_images_no_images req w' _ fields Hops' Hform Hfiles).
Qed.

End HandlerMore.

(** ** More on the loop over the uploads *)

Section BatchMore.
Context `{Externals}.

Lemma zip_name_app a n1 n2 :
  zip_name n1 = zip_name n2 → zip_name (a +:+ n1) = zip_name (a +:+ n2).
Proof.
  intros Heq. induction a as [|c a IH]; [done |].
  simpl. destruct (decide _); [done |]. by rewrite IH.
Qed.

(** Names that [zipfile] stores alike give entry names that it stores
    alike. *)
Lemma zip_name_entry_name ts n1 n2 :
  zip_name n1 = zip_name n2 →
  zip_name (entry_name ts n1) = zip_name (entry_name ts n2).
Proof. intros Heq. unfold entry_name. by do 3 apply zip_name_app. Qed.

Lemma encode_upload_Ok file w data :
  outcome w file = Ok data → encode_upload file w = (Ok data, w).
Proof.
  unfold outcome. destruct (encode_upload file w) as [r w'] eqn:Hrun.
  simpl. intros ->. by rewrite (silent_encode_upload _ _ _ _ Hrun).
Qed.

(** The turn of an upload that is encoded and whose entry fits. *)
Lemma process_file_archived zf file name w data :
  named file = Some name →
  outcome w file = Ok data →
  Z.of_nat (String.length
              (zip_name (entry_name (strftime_now (clock w)) name))) ≤ 65535 →
  process_file zf file w =
  (Ok (zf ++ [(zip_name (entry_name (strftime_now (clock w)) name), data)]),
   mkWorld (config w) (logged w) (S (clock w))).
Proof.
  intros Hn Ho Hlen. unfold process_file, try_except, archive_upload.
  rewrite Hn, !bind_run, (encode_upload_Ok _ _ _ Ho).
  rewrite bind_run. unfold now at 1. cbn [fst snd clock config logged].
  unfold lift, writestr, zip_entry. by rewrite decide_False by lia.
Qed.

(** X14.  In the running application, two uploads whose names [zipfile]
    stores alike (the same name twice, or names that differ only after a
    NUL character), both encoded within one reading of the clock text,
    end up as two entries of one and the same name, in upload order: the
    archive is not keyed by name and the second does not replace the
    first. *)
Theorem uploads_of_one_name_collide w req fields f1 f2 n1 n2 d1 d2 :
  reachable w →
  form req = Ok fields →
  files req !! "images" = Some [f1; f2] →
  named f1 = Some n1 →
  named f2 = Some n2 →
  zip_name n1 = zip_name n2 →
  strftime_now (S (clock w)) = strftime_now (clock w) →
  outcome (update_operations req w).2 f1 = Ok d1 →
  outcome (update_operations req w).2 f2 = Ok d2 →
  Z.of_nat (String.length
              (zip_name (entry_name (strftime_now (clock w)) n1))) ≤ 65535 →
  ∃ resp w',
    process_images req w = (Ok resp, w') ∧
    payload resp =
    Attachment [(zip_name (entry_name (strftime_now (clock w)) n1), d1);
                (zip_name (entry_name (strftime_now (clock w)) n1), d2)].
Proof.
  intros [ops Hops]%reachable_operations Hform Hfiles Hn1 Hn2 Hzip Hts.
  rewrite (update_operations_run req w ops fields Hops Hform). cbn [snd].
  intros Ho1 Ho2 Hlen.
  destruct (process_images_batch req w ops fields [f1; f2] Hops Hform Hfiles)
    as (l & -> & _).
  eexists _, _. split; [done |]. cbn [payload send_file]. f_equal.
  cbn [fates]. unfold fate_of, ticks. rewrite Hn1, Hn2, Ho1, Ho2.
  unfold zip_entry. rewrite Nat.add_1_r, Hts.
  rewrite <- (zip_name_entry_name _ _ _ Hzip).
  by rewrite !decide_False by lia.
Qed.

(** X15.  An upload that cannot be opened costs one line in the log and
    nothing else: the archive is as before, the clock is not read, the
    pipeline and the encoder are not entered. *)
Theorem undecodable_upload_is_logged_once zf file name w e :
  named file = Some name →
  Image_open (stream file) = Raise e →
  process_file zf file w =
  (Ok zf, add_log w ["Error processing " +:+ name +:+ ": " +:+ str e]).
Proof.
  intros Hn Hopen.
  unfold process_file, try_except, archive_upload, encode_upload.
  rewrite Hn, !bind_run. unfold lift at 1. by rewrite Hopen.
Qed.

(** X16.  An upload that opens and then fails inside [process_image] is
    logged at least twice under the text of the same exception: by
    [process_image] itself and then by the handler, in that order at the
    end of the log; the archive is as before. *)
Theorem pipeline_failure_is_logged_twice zf file name w img e w1 :
  named file = Some name →
  Image_open (stream file) = Ok img →
  process_image img w = (Raise e, w1) →
  ∃ l,
    process_file zf file w =
    (Ok zf,
     add_log w (l ++ ["Error processing image: " +:+ str e;
                      "Error processing " +:+ name +:+ ": " +:+ str e])).
Proof.
  intros Hn Hopen Hproc.
  destruct (process_image_Raise_state _ _ _ _ Hproc) as [l ->].
  exists l. unfold process_file, try_except, archive_upload, encode_upload.
  rewrite Hn, !bind_run. unfold lift at 1. rewrite Hopen.
  rewrite !bind_run, Hproc. unfold logging_error.
  rewrite bind_run, add_log_app, <- app_assoc. reflexivity.
Qed.

Lemma process_files_clean fl : ∀ zf w,
  (∀ file name, file ∈ fl → named file = Some name →
     (∃ data, outcome w file = Ok data) ∧
     ∀ t, Z.of_nat (String.length
                      (zip_name (entry_name (strftime_now t) name))) ≤ 65535) →
  ∃ entries,
    process_files fl zf w =
    (Ok (zf ++ entries),
     mkWorld (config w) (logged w) (clock w + length entries)) ∧
    length entries = length (filter (fun file => is_Some (named file)) fl).
Proof.
  induction fl as [|file rest IH]; intros zf w Hall.
  - exists []. split; [| done]. simpl.
    rewrite app_nil_r, Nat.add_0_r. by destruct w.
  - assert (Hrest : ∀ w2, config w2 = config w →
              ∀ f name, f ∈ rest → named f = Some name →
                (∃ data, outcome w2 f = Ok data) ∧
                ∀ t, Z.of_nat (String.length
                                 (zip_name (entry_name (strftime_now t) name)))
                     ≤ 65535).
    { intros w2 Hc f name Hin Hnf.
      rewrite (outcome_config w2 w f Hc).
      apply (Hall f name); [by apply elem_of_cons; right | done]. }
    cbn [process_files]. rewrite bind_run.
    destruct (named file) as [name|] eqn:Hn.
    + destruct (Hall file name) as [[data Ho] Hlen];
        [by apply elem_of_cons; left | done |].
      rewrite filter_cons_True by (by rewrite Hn).
      rewrite (process_file_archived zf file name w data Hn Ho (Hlen _)).
      set (w2 := mkWorld (config w) (logged w) (S (clock w))).
      destruct (IH (zf ++ [(zip_name (entry_name (strftime_now (clock w)) name),
                            data)]) w2 (Hrest w2 eq_refl))
        as (entries & -> & Hcount).
      exists ((zip_name (entry_name (strftime_now (clock w)) name), data)
              :: entries).
      split; [| simpl; by rewrite Hcount].
      cbn [config logged clock w2 length].
      by rewrite <- app_assoc, Nat.add_succ_r.
    + rewrite filter_cons_False by (rewrite Hn; by intros [? ?]).
      rewrite (process_file_unnamed _ _ _ Hn).
      apply IH. by apply Hrest.
Qed.

(** X17.  In the running application, for a request whose form can be
    read, a batch in which every named upload is encoded and has an
    entry name that fits the header leaves the log exactly as it was,
    and the archive has one entry for each named upload. *)
Theorem clean_batch_logs_nothing w req fields fl :
  reachable w →
  form req = Ok fields →
  files req !! "images" = Some fl →
  (∀ file name, file ∈ fl → named file = Some name →
     (∃ data, outcome (update_operations req w).2 file = Ok data) ∧
     ∀ t, Z.of_nat (String.length
                      (zip_name (entry_name (strftime_now t) name))) ≤ 65535) →
  ∃ resp w' entries,
    process_images req w = (Ok resp, w') ∧
    payload resp = Attachment entries ∧
    length entries = length (filter (fun file => is_Some (named file)) fl) ∧
    logged w' = logged w.
Proof.
  intros [ops Hops]%reachable_operations Hform Hfiles.
  rewrite (update_operations_run req w ops fields Hops Hform). cbn [snd].
  intros Hall.
  unfold process_images, try_except.
  rewrite bind_run, (update_operations_run _ _ _ _ Hops Hform), Hfiles.
  destruct (process_files_clean fl [] _ Hall) as (entries & Hrun & Hcount).
  rewrite bind_run, Hrun.
  eexists _, _, entries. split; [reflexivity |]. done.
Qed.

(** X20.  An upload that is opened, processed and encoded but whose
    entry name, as [zipfile] stores it, is longer than 65535 bytes fails
    at [writestr]: the clock was read for its time stamp, the exception
    of the header packing is logged under its name, and the archive is
    as before. *)
Theorem unwritable_entry_is_skipped zf file name w data :
  named file = Some name →
  outcome w file = Ok data →
  65535 < Z.of_nat (String.length
                      (zip_name (entry_name (strftime_now (clock w)) name))) →
  process_file zf file w =
  (Ok zf,
   mkWorld (config w)
     (logged w ++ ["Error processing " +:+ name +:+
                   ": 'H' format requires 0 <= number <= 65535"])
     (S (clock w))).
Proof.
  intros Hn Ho Hlen. unfold process_file, try_except, archive_upload.
  rewrite Hn, !bind_run, (encode_upload_Ok _ _ _ Ho).
  rewrite bind_run. unfold now at 1. cbn [fst snd clock config logged].
  unfold lift, writestr, zip_entry. by rewrite decide_True by lia.
Qed.

End BatchMore.

(** ** More on the compositing *)

Lemma paste_on_white_pixel image res x y r g b a :
  mode image = "RGBA" →
  paste_on_white image = Ok res →
  getpixel image x y = Some [r; g; b; a] →
  getpixel res x y = Some [blend8 a 255 r; blend8 a 255 g; blend8 a 255 b].
Proof.
  intros Hm Hres Hp. rewrite (paste_on_white_run _ Hm) in Hres.
  unfold paste in Hres. rewrite decide_True in Hres by done.
  injection Hres as <-.
  pose proof Hp as (Hx & Hy & Hl)%getpixel_index.
  unfold getpixel at 1. simpl.
  apply Nat.ltb_lt in Hx as Hx', Hy as Hy'. rewrite Hx', Hy'. simpl.
  rewrite list_lookup_imap.
  assert (Hi : (y * width image + x < width image * height image)%nat) by nia.
  rewrite lookup_replicate_2 by done. simpl.
  assert (Hmod : ((y * width image + x) mod width image = x)%nat).
  { rewrite Nat.add_comm, Nat.Div0.mod_add. by apply Nat.mod_small. }
  assert (Hdiv : ((y * width image + x) / width image = y)%nat).
  { rewrite Nat.add_comm, Nat.div_add by lia.
    rewrite Nat.div_small by done. done. }
  rewrite Hmod, Hdiv, Hp, (getpixel_getband _ 3 _ _ _ Hp). done.
Qed.

(** X7.  On the white background an opaque pixel of the segmented image
    keeps its three color values and a fully transparent one turns
    white. *)
Theorem paste_on_white_extremes image res x y r g b :
  mode image = "RGBA" →
  paste_on_white image = Ok res →
  0 ≤ r ≤ 255 → 0 ≤ g ≤ 255 → 0 ≤ b ≤ 255 →
  (getpixel image x y = Some [r; g; b; 255] →
   getpixel res x y = Some [r; g; b]) ∧
  (getpixel image x y = Some [r; g; b; 0] →
   getpixel res x y = Some [255; 255; 255]).
Proof.
  intros Hm Hres Hr Hg Hb. split; intros Hp.
  - rewrite (paste_on_white_pixel _ _ _ _ _ _ _ _ Hm Hres Hp).
    by rewrite !blend8_opaque.
  - rewrite (paste_on_white_pixel _ _ _ _ _ _ _ _ Hm Hres Hp).
    by rewrite !blend8_transparent.
Qed.

(** ** More on the loader *)

Section LoaderMore.
Context `{Externals}.

(** X18.  The loader never loses a top-level key of the defaults: every
    configuration it returns has an entry for each of them, so the reads
    of [config['quality']] and [config['output_format']] cannot raise
    [KeyError] in a processor that was constructed. *)
Theorem load_config_keeps_default_keys fs path cfg key :
  _load_config fs path = Ok cfg →
  is_Some (default_config !! key) →
  is_Some (cfg !! key).
Proof.
  unfold _load_config. intros Hload Hkey.
  destruct path as [[|c p]|]; try (by injection Hload as <-).
  destruct (fs !! String c p) as [[content|]|]; [| done | by injection Hload as <-].
  destruct (safe_load content) as [v|e]; [| done]. simpl in Hload.
  destruct v; try done. injection Hload as <-.
  apply lookup_union_is_Some. by right.
Qed.

(** X19.  The loader returns a configuration in two cases only: the
    defaults, when no path or an empty path is given or the path names
    nothing; the merge, when the path names a file that parses to a
    mapping.  A directory, a file that does not parse and a file that
    parses to something else never give the defaults. *)
Theorem load_config_Ok_inv fs path cfg :
  _load_config fs path = Ok cfg →
  (cfg = default_config ∧
   (path = None ∨ path = Some EmptyString ∨
    ∃ p, path = Some p ∧ fs !! p = None)) ∨
  (∃ p content o,
     path = Some p ∧ p ≠ EmptyString ∧
     fs !! p = Some (File content) ∧
     safe_load content = Ok (VDict o) ∧
     cfg = o ∪ default_config).
Proof.
  unfold _load_config. intros Hload.
  destruct path as [[|c p]|].
  - left. injection Hload as <-. eauto.
  - destruct (fs !! String c p) as [[content|]|] eqn:Hfs.
    + destruct (safe_load content) as [v|e] eqn:Hparse; [| done].
      simpl in Hload. destruct v; try done. injection Hload as <-.
      right. exists (String c p), content, d. by repeat split.
    + done.
    + left. injection Hload as <-. split; [done |]. right. right. eauto.
  - left. injection Hload as <-. eauto.
Qed.

End LoaderMore.

(** ** The further properties on the sample inputs *)

Lemma process_image_all_steps_off_witness :
  @process_image Stub.lib rgb_pixel (mkWorld idle_config [] 0)
  = (Ok rgb_pixel, mkWorld idle_config [] 0) ∧
  @process_image Stub.lib gray_pixel (mkWorld idle_config [] 0)
  = (Ok (mkImage "RGB" 1 1 [[7; 7; 7]]), mkWorld idle_config [] 0).
Proof.
  destruct (@process_image_all_steps_off Stub.lib stub_laws rgb_pixel
              (mkWorld idle_config [] 0) (VBool false) (VBool false)
              (VBool false) eq_refl eq_refl eq_refl eq_refl eq_refl eq_refl)
    as [Hrgb _].
  destruct (@process_image_all_steps_off Stub.lib stub_laws gray_pixel
              (mkWorld idle_config [] 0) (VBool false) (VBool false)
              (VBool false) eq_refl eq_refl eq_refl eq_refl eq_refl eq_refl)
    as [_ Hgray].
  split; [apply Hrgb; reflexivity |].
  apply Hgray; [discriminate | reflexivity].
Defined.

Lemma disabled_background_removal_ignores_rembg_witness :
  @process_image
    (with_remove Stub.lib (fun _ => Raise (LibraryError "no model")))
    gray_pixel (mkWorld idle_config [] 0)
  = @process_image Stub.lib gray_pixel (mkWorld idle_config [] 0).
Proof.
  exact (disabled_background_removal_ignores_rembg Stub.lib
           (fun _ => Raise (LibraryError "no model")) gray_pixel
           (mkWorld idle_config [] 0) (VBool false) eq_refl eq_refl).
Defined.

(** The file that sets the width alone, loaded and then used. *)
Lemma resize_without_height_raises_witness :
  ∃ cfg,
    @_load_config Stub.lib sample_files (Some "config.yaml") = Ok cfg ∧
    @process_image Stub.lib rgb_pixel (mkWorld cfg [] 0)
    = (Raise (KeyError "height"),
       mkWorld cfg ["Error processing image: 'height'"] 0).
Proof.
  exists (list_to_map [("dimensions", VDict (list_to_map [("width", VInt 800)]))]
            ∪ default_config).
  split; [reflexivity |].
  exact (@resize_without_height_raises Stub.lib rgb_pixel
           (mkWorld (list_to_map
                       [("dimensions", VDict (list_to_map [("width", VInt 800)]))]
                       ∪ default_config) [] 0)
           (VBool true)
           (list_to_map [("width", VInt 800)]) (VInt 800)
           eq_refl eq_refl eq_refl eq_refl eq_refl eq_refl).
Defined.

Lemma save_image_encodes_RGB_for_JPEG_witness :
  ∃ data rgb,
    @save_image Stub.lib clear_pixel (VStr "jpeg") start = (Ok data, start) ∧
    mode rgb = "RGB" ∧
    @save Stub.lib rgb (VStr "jpeg") (VInt 95) = Ok data.
Proof.
  assert (Hrun : ∃ data,
            @save_image Stub.lib clear_pixel (VStr "jpeg") start
            = (Ok data, start))
    by (eexists; vm_compute; reflexivity).
  destruct Hrun as [data Hrun].
  destruct (@save_image_encodes_RGB_for_JPEG Stub.lib stub_laws clear_pixel
              "jpeg" start data start Hrun)
    as (_ & quality & Hq & Hif).
  assert (quality = VInt 95) as -> by (by injection Hq).
  rewrite decide_True in Hif by reflexivity.
  destruct Hif as (rgb & Hmode & _ & Hsave).
  by exists data, rgb.
Defined.

Lemma encoded_upload_is_saved_RGB_witness :
  ∃ data img out,
    @outcome Stub.lib (mkWorld idle_config [] 0) (mkFile (Some "a.png") good_upload)
    = Ok data ∧
    @Image_open Stub.lib good_upload = Ok img ∧
    mode out = "RGB" ∧
    @save Stub.lib out (VStr "JPEG") (VInt 95) = Ok data.
Proof.
  assert (Hout : ∃ data,
            @outcome Stub.lib (mkWorld idle_config [] 0)
              (mkFile (Some "a.png") good_upload) = Ok data)
    by (eexists; vm_compute; reflexivity).
  destruct Hout as [data Hout].
  destruct (@encoded_upload_is_saved_RGB Stub.lib stub_laws
              (mkFile (Some "a.png") good_upload)
              (mkWorld idle_config [] 0) data Hout)
    as (img & out & fmt & quality & Hopen & _ & Hmode & Hfmt & Hq & Hsave).
  assert (fmt = VStr "JPEG") as -> by (by injection Hfmt).
  assert (quality = VInt 95) as -> by (by injection Hq).
  by exists data, img, out.
Defined.

Lemma paste_on_white_extremes_witness :
  getpixel (mkImage "RGB" 1 1 [[10; 20; 30]]) 0 0 = Some [10; 20; 30].
Proof.
  apply (paste_on_white_extremes opaque_pixel
           (mkImage "RGB" 1 1 [[10; 20; 30]]) 0 0 10 20 30);
    [reflexivity | reflexivity | lia | lia | lia | reflexivity].
Defined.

Lemma process_images_500_witness :
  ∃ e,
    @process_images Stub.lib three_uploads (mkWorld broken_config [] 0)
    = (Ok (text_response (str e) 500),
       mkWorld broken_config ["Processing error: " +:+ str e] 0).
Proof.
  destruct (@process_images_500 Stub.lib (mkWorld broken_config [] 0)
              three_uploads)
    as (e & Hrun & _).
  - intros ops. simpl. unfold broken_config. rewrite lookup_insert_eq.
    discriminate.
  - by exists e.
Defined.

Lemma unnamed_uploads_are_ignored_witness :
  @process_images Stub.lib same_name_twice start
  = @process_images Stub.lib
      (without_unnamed same_name_twice
         [mkFile (Some "a.png") good_upload;
          mkFile None corrupt_upload;
          mkFile (Some "a.png") good_upload]) start.
Proof.
  apply (@unnamed_uploads_are_ignored Stub.lib start same_name_twice
           [mkFile (Some "a.png") good_upload;
            mkFile None corrupt_upload;
            mkFile (Some "a.png") good_upload] eq_refl).
  vm_compute. discriminate.
Defined.

Lemma no_named_upload_gives_empty_archive_witness :
  ∃ w',
    @process_images Stub.lib empty_selection start
    = (Ok (send_file [] "application/zip"
             "processed_images_20240101_120000.zip"), w') ∧
    logged w' = [] ∧
    clock w' = 1%nat.
Proof.
  apply (@no_named_upload_gives_empty_archive Stub.lib start empty_selection
           ∅ [mkFile (Some EmptyString) []] reachable_start eq_refl eq_refl).
  intros file Hin. apply list_elem_of_singleton in Hin. by subst.
Defined.

Lemma flags_follow_the_form_witness :
  config (@process_images Stub.lib three_uploads start).2
  = flags_config false false true.
Proof.
  exact (@flags_follow_the_form Stub.lib start three_uploads
           (list_to_map [("enhance", "on")]) reachable_start eq_refl).
Defined.

(** The same batch sent first and sent after a request that switched the
    three flags off. *)
Lemma response_independent_of_history_witness :
  (@process_images Stub.lib same_name_twice start).1
  = (@process_images Stub.lib same_name_twice
       (@process_images Stub.lib bare_request start).2).1.
Proof.
  apply (@response_independent_of_history Stub.lib start
           (@process_images Stub.lib bare_request start).2 same_name_twice
           reachable_start
           (@reach_request Stub.lib start bare_request reachable_start)).
  vm_compute. reflexivity.
Defined.

(** Two uploads sent under one name: two entries of the same name. *)
Lemma uploads_of_one_name_collide_witness :
  ∃ resp w' data,
    @process_images Stub.lib two_of_a_name start = (Ok resp, w') ∧
    payload resp =
    Attachment [("processed_20240101_120000_a.png", data);
                ("processed_20240101_120000_a.png", data)].
Proof.
  assert (Hout : ∃ data,
            @outcome Stub.lib (@update_operations two_of_a_name start).2
              (mkFile (Some "a.png") good_upload) = Ok data)
    by (eexists; vm_compute; reflexivity).
  destruct Hout as [data Hout].
  destruct (@uploads_of_one_name_collide Stub.lib start two_of_a_name ∅
              (mkFile (Some "a.png") good_upload)
              (mkFile (Some "a.png") good_upload)
              "a.png" "a.png" data data
              reachable_start eq_refl eq_refl eq_refl eq_refl eq_refl eq_refl
              Hout Hout ltac:(vm_compute; discriminate))
    as (resp & w' & Hrun & Hpay).
  exists resp, w', data. split; [exact Hrun | exact Hpay].
Defined.

Lemma undecodable_upload_is_logged_once_witness :
  @process_file Stub.lib [] (mkFile (Some "b.png") corrupt_upload) start
  = (Ok [],
     mkWorld default_config
       ["Error processing b.png: cannot identify image file"] 0).
Proof.
  exact (@undecodable_upload_is_logged_once Stub.lib []
           (mkFile (Some "b.png") corrupt_upload) "b.png" start
           (LibraryError "cannot identify image file") eq_refl eq_refl).
Defined.

Lemma pipeline_failure_is_logged_twice_witness :
  ∃ l,
    @process_file Stub.lib [] (mkFile (Some "a.png") good_upload)
      (mkWorld width_only_config [] 0)
    = (Ok [],
       mkWorld width_only_config
         (l ++ ["Error processing image: 'height'";
                "Error processing a.png: 'height'"]) 0).
Proof.
  destruct (@pipeline_failure_is_logged_twice Stub.lib []
              (mkFile (Some "a.png") good_upload) "a.png"
              (mkWorld width_only_config [] 0)
              (mkImage "RGBA" 1 1 [[10; 20; 30; 255]])
              (KeyError "height")
              (mkWorld width_only_config
                 ["Error processing image: 'height'"] 0)
              eq_refl eq_refl ltac:(vm_compute; reflexivity))
    as [l Hrun].
  by exists l.
Defined.

Lemma clean_batch_logs_nothing_witness :
  ∃ resp w' entries,
    @process_images Stub.lib same_name_twice start = (Ok resp, w') ∧
    payload resp = Attachment entries ∧
    length entries = 2%nat ∧
    logged w' = [].
Proof.
  apply (@clean_batch_logs_nothing Stub.lib start same_name_twice ∅
           [mkFile (Some "a.png") good_upload;
            mkFile None corrupt_upload;
            mkFile (Some "a.png") good_upload]
           reachable_start eq_refl eq_refl).
  intros file name Hin Hn.
  assert (Hgood : file = mkFile (Some "a.png") good_upload).
  { apply elem_of_cons in Hin as [-> | Hin]; [done |].
    apply elem_of_cons in Hin as [-> | Hin]; [discriminate |].
    by apply list_elem_of_singleton in Hin as ->. }
  subst file. injection Hn as <-. split.
  - eexists. vm_compute. reflexivity.
  - intros t. vm_compute. discriminate.
Defined.

(** A good upload under a name of 65536 letters. *)
Lemma unwritable_entry_is_skipped_witness :
  @process_file Stub.lib [] (mkFile (Some long_name) good_upload)
    (mkWorld idle_config [] 0)
  = (Ok [],
     mkWorld idle_config
       ["Error processing " +:+ long_name +:+
        ": 'H' format requires 0 <= number <= 65535"] 1).
Proof.
  assert (Hout : ∃ data,
            @outcome Stub.lib (mkWorld idle_config [] 0)
              (mkFile (Some long_name) good_upload) = Ok data)
    by (eexists; vm_compute; reflexivity).
  destruct Hout as [data Hout].
  exact (@unwritable_entry_is_skipped Stub.lib []
           (mkFile (Some long_name) good_upload) long_name
           (mkWorld idle_config [] 0) data eq_refl Hout
           ltac:(vm_compute; reflexivity)).
Defined.

Lemma load_config_keeps_default_keys_witness :
  ∃ cfg,
    @_load_config Stub.lib sample_files (Some "config.yaml") = Ok cfg ∧
    is_Some (cfg !! "quality").
Proof.
  eexists. split; [reflexivity |].
  apply (@load_config_keeps_default_keys Stub.lib sample_files
           (Some "config.yaml") _ "quality" eq_refl).
  by eexists.
Defined.

Lemma load_config_Ok_inv_witness :
  @_load_config Stub.lib sample_files None = Ok default_config ∧
  (default_config = default_config ∧
   ((None : option string) = None ∨ None = Some EmptyString ∨
    ∃ p, None = Some p ∧ sample_files !! p = None) ∨
   ∃ p content o,
     None = Some p ∧ p ≠ EmptyString ∧
     sample_files !! p = Some (File content) ∧
     @safe_load Stub.lib content = Ok (VDict o) ∧
     default_config = o ∪ default_config).
Proof.
  split; [reflexivity |].
  exact (@load_config_Ok_inv Stub.lib sample_files None default_config eq_refl).
Defined.
